(** * RP2040 interpolator demo (src/main.cpp): range mapping with the blend lane

    The sketch maps an ADC reading from a calibrated range to an expected
    range with the INTERP0 peripheral of the RP2040 in blend mode, and
    compares the value read back from the peripheral with the same mapping
    computed in software.

    The development has three layers:
    - [CInt]: the C++ [int] and [uint32_t] arithmetic the sketch relies on;
    - [Interp]: the interpolator registers the sketch writes and reads;
    - [Sketch]: the statements of [blending] and [adc_linear_interpolation]. *)

From Stdlib Require Import ZArith Lia List Bool.
Import ListNotations.

Local Open Scope Z_scope.

(* ------------------------------------------------------------------ *)
(** ** C++ integers *)

Module CInt.

Definition INT_MIN : Z := -2147483648.
Definition INT_MAX : Z := 2147483647.

(** Values of the 32-bit [int] of the target (ARM Cortex-M0+). *)
Definition fits_int (z : Z) : Prop := INT_MIN <= z <= INT_MAX.

Definition fits_intb (z : Z) : bool := (INT_MIN <=? z) && (z <=? INT_MAX).

(** Signed overflow and division by zero are undefined in C++: an
    expression that runs into one of them has no value. *)
Inductive fault : Type :=
| Overflow
| DivByZero.

Inductive result (A : Type) : Type :=
| Ok (a : A)
| Fault (f : fault).

Arguments Ok {A} a.
Arguments Fault {A} f.

Definition bind {A B : Type} (r : result A) (k : A -> result B) : result B :=
  match r with
  | Ok a => k a
  | Fault f => Fault f
  end.

Definition checked (z : Z) : result Z :=
  if fits_intb z then Ok z else Fault Overflow.

Definition int_add (a b : Z) : result Z := checked (a + b).
Definition int_sub (a b : Z) : result Z := checked (a - b).
Definition int_mul (a b : Z) : result Z := checked (a * b).

(** [a / b] on [int]: the quotient is truncated towards zero. *)
Definition int_div (a b : Z) : result Z :=
  if b =? 0 then Fault DivByZero else checked (Z.quot a b).

(** [a >> n] on a signed [int]: arithmetic shift (GCC on ARM). *)
Definition int_shr (a n : Z) : Z := Z.shiftr a n.

(** Conversion of an [int] to [uint32_t] (a store to an [io_rw_32]
    register) and of a [uint32_t] back to [int] (the cast [(int)]). *)
Definition to_u32 (z : Z) : Z := z mod 2 ^ 32.

Definition to_int (u : Z) : Z := if u <? 2 ^ 31 then u else u - 2 ^ 32.

End CInt.

Import CInt.

Declare Scope result_scope.
Delimit Scope result_scope with result.
Notation "x <- r ;; k" := (CInt.bind r (fun x => k))
  (at level 61, r at next level, right associativity) : result_scope.

(* ------------------------------------------------------------------ *)
(** ** The interpolator peripheral

    The registers of INTERP0 are memory-mapped hardware, reached through
    [hardware/interp.h]. Their behaviour is the one the comments of
    [blending] (main.cpp, lines 67-79 and 99-100) and of
    [adc_linear_interpolation] (lines 145-146) describe: with blend enabled
    on lane 0, PEEK1 is [x0 + a (x1 - x0)] with [x0 = BASE0], [x1 = BASE1]
    and [a] the fraction formed from the least significant 8 bits of the
    lane 1 shift/mask value, [0 <= a < 1], that is, that byte over 256.
    Lane 1 decides whether the two bases are read as signed or unsigned
    words. Clamp mode (INTERP1 only), the cross-result multiplexer and the
    forced most significant bits stay at their reset value throughout the
    sketch and are left out. *)

Module Interp.

Record interp_config : Type := {
  shift : Z;
  mask_lsb : Z;
  mask_msb : Z;
  is_signed : bool;
  cross_input : bool;
  add_raw : bool;
  blend : bool
}.

(** [interp_default_config()]: no shift, mask over all 32 bits, every flag
    cleared. *)
Definition interp_default_config : interp_config :=
  {| shift := 0; mask_lsb := 0; mask_msb := 31; is_signed := false;
     cross_input := false; add_raw := false; blend := false |}.

Definition interp_config_set_blend (c : interp_config) (b : bool) : interp_config :=
  {| shift := shift c; mask_lsb := mask_lsb c; mask_msb := mask_msb c;
     is_signed := is_signed c; cross_input := cross_input c;
     add_raw := add_raw c; blend := b |}.

(** The register file of one interpolator: [accum[2]], [base[3]] and
    [ctrl[2]], every data register an unsigned 32-bit word. *)
Record interp_hw : Type := {
  accum0 : Z;
  accum1 : Z;
  base0 : Z;
  base1 : Z;
  base2 : Z;
  ctrl0 : interp_config;
  ctrl1 : interp_config
}.

(** [interp_set_config(interp0, lane, &cfg)]. *)
Definition interp_set_config (lane : nat) (c : interp_config) (hw : interp_hw) : interp_hw :=
  match lane with
  | O => {| accum0 := accum0 hw; accum1 := accum1 hw; base0 := base0 hw;
            base1 := base1 hw; base2 := base2 hw; ctrl0 := c; ctrl1 := ctrl1 hw |}
  | _ => {| accum0 := accum0 hw; accum1 := accum1 hw; base0 := base0 hw;
            base1 := base1 hw; base2 := base2 hw; ctrl0 := ctrl0 hw; ctrl1 := c |}
  end.

(** [interp0->accum[i] = v] and [interp0->base[i] = v] with [v] an [int]:
    the store converts to the register's unsigned word. *)
Definition write_accum (i : nat) (v : Z) (hw : interp_hw) : interp_hw :=
  match i with
  | O => {| accum0 := to_u32 v; accum1 := accum1 hw; base0 := base0 hw;
            base1 := base1 hw; base2 := base2 hw; ctrl0 := ctrl0 hw; ctrl1 := ctrl1 hw |}
  | _ => {| accum0 := accum0 hw; accum1 := to_u32 v; base0 := base0 hw;
            base1 := base1 hw; base2 := base2 hw; ctrl0 := ctrl0 hw; ctrl1 := ctrl1 hw |}
  end.

Definition write_base (i : nat) (v : Z) (hw : interp_hw) : interp_hw :=
  match i with
  | O => {| accum0 := accum0 hw; accum1 := accum1 hw; base0 := to_u32 v;
            base1 := base1 hw; base2 := base2 hw; ctrl0 := ctrl0 hw; ctrl1 := ctrl1 hw |}
  | S O => {| accum0 := accum0 hw; accum1 := accum1 hw; base0 := base0 hw;
              base1 := to_u32 v; base2 := base2 hw; ctrl0 := ctrl0 hw; ctrl1 := ctrl1 hw |}
  | _ => {| accum0 := accum0 hw; accum1 := accum1 hw; base0 := base0 hw;
            base1 := base1 hw; base2 := to_u32 v; ctrl0 := ctrl0 hw; ctrl1 := ctrl1 hw |}
  end.

(** Bits [lsb .. msb] set, the others clear. *)
Definition lane_mask (c : interp_config) : Z :=
  Z.ldiff (Z.ones (mask_msb c + 1)) (Z.ones (mask_lsb c)).

(** The accumulator a lane takes as input. *)
Definition lane_input (lane : nat) (hw : interp_hw) : Z :=
  match lane with
  | O => if cross_input (ctrl0 hw) then accum1 hw else accum0 hw
  | _ => if cross_input (ctrl1 hw) then accum0 hw else accum1 hw
  end.

Definition lane_ctrl (lane : nat) (hw : interp_hw) : interp_config :=
  match lane with
  | O => ctrl0 hw
  | _ => ctrl1 hw
  end.

(** Right shift, mask, then sign extension from the mask's top bit when
    the lane is signed. The value is a 32-bit word. *)
Definition lane_value (lane : nat) (hw : interp_hw) : Z :=
  let c := lane_ctrl lane hw in
  let masked := Z.land (Z.shiftr (lane_input lane hw) (shift c)) (lane_mask c) in
  if is_signed c && Z.testbit masked (mask_msb c)
  then to_u32 (masked - 2 ^ (mask_msb c + 1))
  else masked.

(** What a lane adds to its base: the raw accumulator or the lane value. *)
Definition lane_addend (lane : nat) (hw : interp_hw) : Z :=
  if add_raw (lane_ctrl lane hw) then lane_input lane hw else lane_value lane hw.

(** The blend fraction: the low byte of the lane 1 value. *)
Definition alpha (hw : interp_hw) : Z := Z.land (lane_value 1 hw) 255.

(** A base register as the blend reads it: signed or unsigned, as lane 1
    says. *)
Definition blend_operand (hw : interp_hw) (b : Z) : Z :=
  if is_signed (ctrl1 hw) then to_int b else b.

(** [x0 + a (x1 - x0)] with [a = alpha / 256]: the product is shifted
    right by 8 bits and the sum truncated to the 32-bit result. *)
Definition blend_result (hw : interp_hw) : Z :=
  let x0 := blend_operand hw (base0 hw) in
  let x1 := blend_operand hw (base1 hw) in
  to_u32 (x0 + Z.shiftr (alpha hw * (x1 - x0)) 8).

(** [interp0->peek[i]]: a read without side effect. *)
Definition peek (i : nat) (hw : interp_hw) : Z :=
  match i with
  | O => if blend (ctrl0 hw) then alpha hw
         else to_u32 (base0 hw + lane_addend 0 hw)
  | S O => if blend (ctrl0 hw) then blend_result hw
           else to_u32 (base1 hw + lane_addend 1 hw)
  | _ => to_u32 (base2 hw + lane_value 0 hw
                 + (if blend (ctrl0 hw) then 0 else lane_value 1 hw))
  end.

(** [interp0->pop[i]]: the read of [peek[i]] and, with it, the update of
    the accumulators (main.cpp, line 55: "peek + update accumulator"): the
    two lane results are written back to ACCUM0 and ACCUM1. *)
Definition pop (i : nat) (hw : interp_hw) : Z * interp_hw :=
  (peek i hw,
   {| accum0 := peek 0 hw; accum1 := peek 1 hw; base0 := base0 hw;
      base1 := base1 hw; base2 := base2 hw; ctrl0 := ctrl0 hw; ctrl1 := ctrl1 hw |}).

End Interp.

Import Interp.

(* ------------------------------------------------------------------ *)
(** ** The sketch *)

Module Sketch.

(** Statements run on the register file and may hit undefined behaviour. *)
Definition M (A : Type) : Type := interp_hw -> result (A * interp_hw).

Definition ret {A : Type} (a : A) : M A := fun hw => Ok (a, hw).

Definition mbind {A B : Type} (m : M A) (k : A -> M B) : M B :=
  fun hw =>
    match m hw with
    | Ok (a, hw') => k a hw'
    | Fault f => Fault f
    end.

(** An [int] expression evaluated inside a statement. *)
Definition eval {A : Type} (r : result A) : M A :=
  fun hw =>
    match r with
    | Ok a => Ok (a, hw)
    | Fault f => Fault f
    end.

(** A register write and a register read. *)
Definition store (w : interp_hw -> interp_hw) : M unit := fun hw => Ok (tt, w hw).

Definition load {A : Type} (r : interp_hw -> A) : M A := fun hw => Ok (r hw, hw).

Declare Scope sketch_scope.
Delimit Scope sketch_scope with sketch.
Notation "x <-- m ;; k" := (mbind m (fun x => k))
  (at level 61, m at next level, right associativity) : sketch_scope.
Notation "m ;;; k" := (mbind m (fun _ => k))
  (at level 61, right associativity) : sketch_scope.

(** The literals of the source: the fraction has 8 bits, its largest value
    is 255. *)
Definition FRACTION_MAX : Z := 255.
Definition FRACTION_BITS : Z := 8.

(** Lines 129-139 (and 81-91): blend on lane 0, the two endpoints in
    BASE0 and BASE1, the default configuration on lane 1. *)
Definition blend_setup (expected_lo expected_hi : Z) (hw : interp_hw) : interp_hw :=
  let cfg := interp_config_set_blend interp_default_config true in
  let hw := interp_set_config 0 cfg hw in
  let hw := write_base 0 expected_lo hw in
  let hw := write_base 1 expected_hi hw in
  let cfg := interp_default_config in
  interp_set_config 1 cfg hw.

(** Lines 142 and 158, right-hand side:
    [255 * (raw_val - calibrated_lo) / (calibrated_hi - calibrated_lo)]. *)
Definition fraction (raw_val calibrated_lo calibrated_hi : Z) : result Z :=
  (d <- int_sub raw_val calibrated_lo ;;
   n <- int_mul FRACTION_MAX d ;;
   r <- int_sub calibrated_hi calibrated_lo ;;
   int_div n r)%result.

(** Lines 147 and 163:
    [expected_lo + (expected_hi - expected_lo) * (raw_val - calibrated_lo)
                   / (calibrated_hi - calibrated_lo)]. *)
Definition software (expected_lo expected_hi calibrated_lo calibrated_hi raw_val : Z)
  : result Z :=
  (e <- int_sub expected_hi expected_lo ;;
   d <- int_sub raw_val calibrated_lo ;;
   n <- int_mul e d ;;
   r <- int_sub calibrated_hi calibrated_lo ;;
   q <- int_div n r ;;
   int_add expected_lo q)%result.

(** Lines 148 and 164: [(int) interp0->peek[1]]. *)
Definition hardware (hw : interp_hw) : Z := to_int (peek 1 hw).

(** Lines 149 and 165: [hardware + (hardware >> 8)]. *)
Definition hardware_corrected (hw_val : Z) : result Z :=
  int_add hw_val (int_shr hw_val FRACTION_BITS).

(** The value read back for a fraction [a] already in hand: the store of
    line 142 followed by the read of line 148, on the lanes set up for
    the two endpoints. *)
Definition interpolate (a expected_lo expected_hi : Z) (hw : interp_hw) : Z :=
  hardware (write_accum 1 a (blend_setup expected_lo expected_hi hw)).

(** The three numbers the sketch prints for one sample. *)
Record readings : Type := {
  soft : Z;
  hw_raw : Z;
  hw_corrected : Z
}.

(** Lines 142 and 158: the fraction is computed and stored into ACCUM1. *)
Definition set_fraction (raw_val calibrated_lo calibrated_hi : Z) : M Z :=
  (a <-- eval (fraction raw_val calibrated_lo calibrated_hi) ;;
   store (write_accum 1 a) ;;;
   ret a)%sketch.

(** Lines 142-149 (and the loop body, lines 158-165) on lanes already set
    up. *)
Definition adc_sample (expected_lo expected_hi calibrated_lo calibrated_hi raw_val : Z)
  : M readings :=
  (set_fraction raw_val calibrated_lo calibrated_hi ;;;
   s <-- eval (software expected_lo expected_hi calibrated_lo calibrated_hi raw_val) ;;
   h <-- load hardware ;;
   c <-- eval (hardware_corrected h) ;;
   ret {| soft := s; hw_raw := h; hw_corrected := c |})%sketch.

(** The hardware path alone, from the raw sample to the value read back
    (lines 129-142 and 148). *)
Definition map_hardware (expected_lo expected_hi calibrated_lo calibrated_hi raw_val : Z)
  : M Z :=
  (store (blend_setup expected_lo expected_hi) ;;;
   set_fraction raw_val calibrated_lo calibrated_hi ;;;
   load hardware)%sketch.

(** Lines 129-149: the lanes are set up and one sample is mapped. *)
Definition adc_once (expected_lo expected_hi calibrated_lo calibrated_hi raw_val : Z)
  : M readings :=
  (store (blend_setup expected_lo expected_hi) ;;;
   adc_sample expected_lo expected_hi calibrated_lo calibrated_hi raw_val)%sketch.

(** The loop of lines 156-176: [n] iterations from [adc_val] in steps of
    100. *)
Fixpoint adc_loop (n : nat) (expected_lo expected_hi calibrated_lo calibrated_hi adc_val : Z)
  : M (list readings) :=
  match n with
  | O => ret []
  | S n' =>
      (r <-- adc_sample expected_lo expected_hi calibrated_lo calibrated_hi adc_val ;;
       next <-- eval (int_add adc_val 100) ;;
       rs <-- adc_loop n' expected_lo expected_hi calibrated_lo calibrated_hi next ;;
       ret (r :: rs))%sketch
  end.

(** Number of times [for (v = start; v <= stop; v += step)] runs its body. *)
Definition trip_count (start stop step : Z) : nat :=
  if start <=? stop then Z.to_nat ((stop - start) / step + 1) else O.

(** [adc_linear_interpolation] with its five locals as parameters: the
    single sample of lines 142-153, then the sweep. *)
Definition adc_run (expected_lo expected_hi calibrated_lo calibrated_hi raw_val : Z)
  : M (readings * list readings) :=
  (one <-- adc_once expected_lo expected_hi calibrated_lo calibrated_hi raw_val ;;
   sweep <-- adc_loop (trip_count 1000 calibrated_hi 100)
               expected_lo expected_hi calibrated_lo calibrated_hi 1000 ;;
   ret (one, sweep))%sketch.

(** Lines 123-127: the constants of the sketch. *)
Definition adc_linear_interpolation : M (readings * list readings) :=
  adc_run 1000 3000 900 2800 1500.

(** [blending], lines 81-102: the seven values it prints. *)
Definition blending (hw : interp_hw) : result (list Z) :=
  let hw := blend_setup 500 1000 hw in
  fold_right
    (fun i acc =>
       (n <- int_mul 255 i ;;
        a <- int_div n 6 ;;
        rest <- acc ;;
        Ok (hardware (write_accum 1 a hw) :: rest))%result)
    (Ok []) [0; 1; 2; 3; 4; 5; 6].

(** Lines 57-60: [n] passes of the loop of [times_table] from the counter
    [i]; every pass prints [i] and the value popped from lane 0. *)
Fixpoint times_loop (n : nat) (i : Z) : M (list (Z * Z)) :=
  match n with
  | O => ret []
  | S n' =>
      (v <-- (fun hw => Ok (pop 0 hw)) ;;
       next <-- eval (int_add i 1) ;;
       rest <-- times_loop n' next ;;
       ret ((i, to_int v) :: rest))%sketch
  end.

(** [times_table] (lines 29-61) with the increment and the last row as
    parameters: the value peeked first, then the rows popped. *)
Definition times_table_run (step last : Z) : M (Z * list (Z * Z)) :=
  (store (interp_set_config 0 interp_default_config) ;;;
   store (write_accum 0 0) ;;;
   store (write_base 0 step) ;;;
   p <-- load (fun hw => to_int (peek 0 hw)) ;;
   rows <-- times_loop (trip_count 1 last 1) 1 ;;
   ret (p, rows))%sketch.

(** Lines 48, 49 and 57: the 9 times table, ten rows. *)
Definition times_table : M (Z * list (Z * Z)) := times_table_run 9 10.

(** The lane of the times table after [k] pops: ACCUM0 holds [step * k]. *)
Definition table_at (step k : Z) (hw : interp_hw) : Prop :=
  ctrl0 hw = interp_default_config
  /\ base0 hw = to_u32 step
  /\ accum0 hw = to_u32 (step * k).

(** The integers [start, start + step, ...], [n] of them. *)
Fixpoint zseq (start step : Z) (n : nat) : list Z :=
  match n with
  | O => []
  | S n' => start :: zseq (start + step) step n'
  end.

(** The lanes as [blend_setup] leaves them, whatever the accumulators and
    BASE2 hold. *)
Definition lanes_ready (expected_lo expected_hi : Z) (hw : interp_hw) : Prop :=
  ctrl0 hw = interp_config_set_blend interp_default_config true
  /\ ctrl1 hw = interp_default_config
  /\ base0 hw = to_u32 expected_lo
  /\ base1 hw = to_u32 expected_hi.

(** The blend of two endpoints for the fraction [a], as a number. *)
Definition blend_value (a expected_lo expected_hi : Z) : Z :=
  to_int (to_u32 (to_u32 expected_lo
                  + (a mod 256) * (to_u32 expected_hi - to_u32 expected_lo) / 256)).

(** The three numbers of one sample as a function of the five locals. *)
Definition sample_value (expected_lo expected_hi calibrated_lo calibrated_hi raw_val : Z)
  : result readings :=
  (a <- fraction raw_val calibrated_lo calibrated_hi ;;
   s <- software expected_lo expected_hi calibrated_lo calibrated_hi raw_val ;;
   c <- hardware_corrected (blend_value a expected_lo expected_hi) ;;
   Ok {| soft := s; hw_raw := blend_value a expected_lo expected_hi;
         hw_corrected := c |})%result.

(** The three numbers for a sample inside the calibrated range, in closed
    form: [/] rounds down. *)
Definition reading_in_range (expected_lo expected_hi calibrated_lo calibrated_hi raw_val : Z)
  : readings :=
  let a := FRACTION_MAX * (raw_val - calibrated_lo) / (calibrated_hi - calibrated_lo) in
  let h := expected_lo + a * (expected_hi - expected_lo) / 256 in
  {| soft := expected_lo + (expected_hi - expected_lo) * (raw_val - calibrated_lo)
                           / (calibrated_hi - calibrated_lo);
     hw_raw := h;
     hw_corrected := h + h / 256 |}.

(** The rows of the sweep as a function of the locals. *)
Fixpoint sweep_value (n : nat)
  (expected_lo expected_hi calibrated_lo calibrated_hi adc_val : Z)
  : result (list readings) :=
  match n with
  | O => Ok []
  | S n' =>
      (r <- sample_value expected_lo expected_hi calibrated_lo calibrated_hi adc_val ;;
       next <- int_add adc_val 100 ;;
       rs <- sweep_value n' expected_lo expected_hi calibrated_lo calibrated_hi next ;;
       Ok (r :: rs))%result
  end.

(** The value a statement leaves, without the registers. *)
Definition value_of {A : Type} (r : result (A * interp_hw)) : result A :=
  match r with
  | Ok (a, _) => Ok a
  | Fault f => Fault f
  end.

(** Registers after reset. *)
Definition hw_reset : interp_hw :=
  {| accum0 := 0; accum1 := 0; base0 := 0; base1 := 0; base2 := 0;
     ctrl0 := interp_default_config; ctrl1 := interp_default_config |}.

End Sketch.

Import Sketch.

(** Range side conditions on [int] values. *)
Ltac int_range :=
  unfold fits_int, INT_MIN, INT_MAX, FRACTION_MAX, FRACTION_BITS in *; lia.

(* ------------------------------------------------------------------ *)
(** ** Integer facts *)

Section IntFacts.

Lemma fits_intb_spec (z : Z) : fits_intb z = true <-> fits_int z.
Proof.
  unfold fits_intb, fits_int.
  rewrite andb_true_iff, !Z.leb_le. tauto.
Qed.

Lemma checked_fits (z : Z) : fits_int z -> checked z = Ok z.
Proof.
  intros H. unfold checked.
  apply fits_intb_spec in H. now rewrite H.
Qed.

Lemma checked_overflow (z : Z) : ~ fits_int z -> checked z = Fault Overflow.
Proof.
  intros H. unfold checked.
  destruct (fits_intb z) eqn:E; [|reflexivity].
  apply fits_intb_spec in E. contradiction.
Qed.

Lemma to_u32_range (z : Z) : 0 <= to_u32 z < 2 ^ 32.
Proof. unfold to_u32. apply Z.mod_pos_bound. lia. Qed.

Lemma to_u32_nonneg (z : Z) : 0 <= z -> fits_int z -> to_u32 z = z.
Proof.
  unfold fits_int, INT_MAX, to_u32. intros H0 H.
  apply Z.mod_small. lia.
Qed.

Lemma to_u32_neg (z : Z) : z < 0 -> fits_int z -> to_u32 z = z + 2 ^ 32.
Proof.
  unfold fits_int, INT_MIN, to_u32. intros H0 H.
  symmetry. apply (Z.mod_unique_pos z (2 ^ 32) (-1) (z + 2 ^ 32)); lia.
Qed.

Lemma to_u32_add_l (x y : Z) : to_u32 (to_u32 x + y) = to_u32 (x + y).
Proof. unfold to_u32. apply Zplus_mod_idemp_l. Qed.

(** The cast back to [int] undoes the store of an [int]. *)
Lemma to_int_to_u32 (z : Z) : fits_int z -> to_int (to_u32 z) = z.
Proof.
  intros H. destruct (Z_lt_le_dec z 0) as [Hn | Hp].
  - rewrite to_u32_neg by assumption. unfold to_int.
    unfold fits_int, INT_MIN in H.
    destruct (z + 2 ^ 32 <? 2 ^ 31) eqn:E; [apply Z.ltb_lt in E|]; lia.
  - rewrite to_u32_nonneg by assumption. unfold to_int.
    unfold fits_int, INT_MAX in H.
    destruct (z <? 2 ^ 31) eqn:E; [|apply Z.ltb_ge in E]; lia.
Qed.

(** Two endpoints of the same sign keep their distance as unsigned words. *)
Lemma to_u32_diff (lo hi : Z) :
  fits_int lo -> fits_int hi -> lo <= hi -> 0 <= lo \/ hi < 0 ->
  to_u32 hi - to_u32 lo = hi - lo.
Proof.
  intros Hl Hh Hle [Hs | Hs].
  - rewrite !to_u32_nonneg by (assumption || lia). reflexivity.
  - rewrite !to_u32_neg by (assumption || lia). lia.
Qed.

(** Truncation and floor agree on a non-negative numerator. *)
Lemma quot_floor (n d : Z) : 0 <= n -> 0 < d -> Z.quot n d = n / d.
Proof. intros. apply Z.quot_div_nonneg; lia. Qed.

Lemma shiftr8_div (z : Z) : Z.shiftr z 8 = z / 256.
Proof. rewrite Z.shiftr_div_pow2 by lia. reflexivity. Qed.

(** A fraction of at most 255/256 of a non-negative span stays inside it. *)
Lemma scaled_span_bounds (a d : Z) :
  0 <= a <= 255 -> 0 <= d -> 0 <= a * d / 256 <= d.
Proof.
  intros Ha Hd. split.
  - apply Z.div_pos; nia.
  - apply Z.div_le_upper_bound; nia.
Qed.

End IntFacts.

(* ------------------------------------------------------------------ *)
(** ** The blend lane as the sketch sets it up *)

Section BlendFacts.

Variable hw0 : interp_hw.

Lemma alpha_blend_setup (a lo hi : Z) :
  alpha (write_accum 1 a (blend_setup lo hi hw0)) = a mod 256.
Proof.
  unfold alpha, lane_value, lane_ctrl, lane_input, lane_mask. cbn.
  change 4294967295 with (Z.ones 32).
  change 255 with (Z.ones 8).
  rewrite !Z.land_ones by lia.
  unfold to_u32. rewrite Z.mod_mod by lia.
  change (2 ^ 32) with (2 ^ 8 * 2 ^ 24).
  rewrite Z.rem_mul_r by lia.
  change (2 ^ 8) with 256.
  rewrite Z.mul_comm, Z.mod_add by lia.
  apply Z.mod_mod. lia.
Qed.

Lemma peek1_blend_setup (a lo hi : Z) :
  peek 1 (write_accum 1 a (blend_setup lo hi hw0))
  = to_u32 (to_u32 lo + (a mod 256) * (to_u32 hi - to_u32 lo) / 256).
Proof.
  pose proof (alpha_blend_setup a lo hi) as Ha.
  set (hw := write_accum 1 a (blend_setup lo hi hw0)) in *.
  assert (Hb : blend (ctrl0 hw) = true) by reflexivity.
  assert (Hs : is_signed (ctrl1 hw) = false) by reflexivity.
  assert (H0 : base0 hw = to_u32 lo) by reflexivity.
  assert (H1 : base1 hw = to_u32 hi) by reflexivity.
  unfold peek, blend_result, blend_operand.
  rewrite Hb, Hs, H0, H1, Ha. now rewrite shiftr8_div.
Qed.

(** The value read back, for endpoints of the same sign. *)
Lemma interpolate_same_sign (a lo hi : Z) :
  fits_int lo -> fits_int hi -> lo <= hi -> 0 <= lo \/ hi < 0 ->
  interpolate a lo hi hw0 = lo + (a mod 256) * (hi - lo) / 256.
Proof.
  intros Hl Hh Hle Hs.
  unfold interpolate, hardware. rewrite peek1_blend_setup.
  rewrite to_u32_diff by assumption.
  rewrite to_u32_add_l.
  apply to_int_to_u32.
  pose proof (Z.mod_pos_bound a 256 ltac:(lia)) as Ha.
  pose proof (scaled_span_bounds (a mod 256) (hi - lo) ltac:(lia) ltac:(lia)).
  unfold fits_int in *. lia.
Qed.

End BlendFacts.

(* ------------------------------------------------------------------ *)
(** ** The fraction *)

Section FractionFacts.

(** A truncated quotient is no larger in magnitude than its numerator. *)
Lemma quot_fits (n r : Z) :
  fits_int n -> fits_int r -> r <> 0 -> (n = INT_MIN -> r <> -1) ->
  fits_int (Z.quot n r).
Proof.
  unfold fits_int, INT_MIN, INT_MAX. intros Hn Hr Hr0 Hm.
  pose proof (Z.quot_rem' n r) as E.
  pose proof (Z.rem_bound_abs n r Hr0) as B.
  pose proof (Z.rem_sign_mul n r Hr0) as S.
  nia.
Qed.

Lemma fraction_defined (raw lo hi : Z) :
  fits_int (raw - lo) -> fits_int (FRACTION_MAX * (raw - lo)) ->
  fits_int (hi - lo) -> hi <> lo ->
  fraction raw lo hi = Ok (Z.quot (FRACTION_MAX * (raw - lo)) (hi - lo)).
Proof.
  intros Hd Hn Hr Hne. unfold fraction, int_sub, int_mul, int_div.
  rewrite (checked_fits _ Hd). cbn [CInt.bind].
  rewrite (checked_fits _ Hn). cbn [CInt.bind].
  rewrite (checked_fits _ Hr). cbn [CInt.bind].
  destruct (hi - lo =? 0) eqn:E; [apply Z.eqb_eq in E; lia|].
  apply checked_fits, quot_fits; try assumption; [lia|].
  unfold FRACTION_MAX, INT_MIN. lia.
Qed.

End FractionFacts.

(* ------------------------------------------------------------------ *)
(** ** Running the statements *)

Section RunFacts.

Lemma set_fraction_run (raw lo hi a : Z) (hw : interp_hw) :
  fraction raw lo hi = Ok a ->
  set_fraction raw lo hi hw = Ok (a, write_accum 1 a hw).
Proof.
  intros H. unfold set_fraction, mbind, eval, store, ret. now rewrite H.
Qed.

Lemma set_fraction_fault (raw lo hi : Z) (f : fault) (hw : interp_hw) :
  fraction raw lo hi = Fault f ->
  set_fraction raw lo hi hw = Fault f.
Proof.
  intros H. unfold set_fraction, mbind, eval. now rewrite H.
Qed.

Lemma map_hardware_run (elo ehi clo chi raw a : Z) (hw : interp_hw) :
  fraction raw clo chi = Ok a ->
  map_hardware elo ehi clo chi raw hw
  = Ok (interpolate a elo ehi hw, write_accum 1 a (blend_setup elo ehi hw)).
Proof.
  intros H. unfold map_hardware, mbind, store at 1.
  rewrite (set_fraction_run _ _ _ _ _ H).
  reflexivity.
Qed.

End RunFacts.

(* ------------------------------------------------------------------ *)
(** ** The value read back from the blend lane *)

(** C1, as the sketch behaves: for every fraction [a] in [0, 255] and every
    expected range with [high > low] whose endpoints are [int] values of the
    same sign, the value read back from [interp0->peek[1]] is
    [low + (high - low) * a / 256], the division rounding down: the
    hardware divides by 2^8, not by 255. *)
Theorem blend_read_formula (a expected_lo expected_hi : Z) (hw : interp_hw) :
  0 <= a <= FRACTION_MAX ->
  expected_lo < expected_hi ->
  fits_int expected_lo -> fits_int expected_hi ->
  0 <= expected_lo \/ expected_hi < 0 ->
  interpolate a expected_lo expected_hi hw
  = expected_lo + (expected_hi - expected_lo) * a / 2 ^ FRACTION_BITS.
Proof.
  intros Ha Hlt Hl Hh Hs.
  rewrite interpolate_same_sign by (assumption || lia).
  unfold FRACTION_MAX in Ha.
  rewrite Z.mod_small by lia.
  now rewrite (Z.mul_comm a).
Qed.

Lemma blend_read_formula_witness :
  interpolate 127 500 1000 hw_reset = 500 + (1000 - 500) * 127 / 2 ^ FRACTION_BITS.
Proof.
  apply (blend_read_formula 127 500 1000 hw_reset); int_range.
Defined.

(** C1 as stated fails: with the endpoints of [blending] and the fraction of
    its fourth step the hardware returns 748, the division by 255 gives
    749. *)
Lemma blend_read_not_over_255 :
  interpolate 127 500 1000 hw_reset <> 500 + (1000 - 500) * 127 / FRACTION_MAX.
Proof. vm_compute. discriminate. Qed.

(** The seven values [blending] prints; the last one is 998, not 1000. *)
Example blending_prints :
  blending hw_reset = Ok [500; 582; 666; 748; 832; 914; 998].
Proof. reflexivity. Qed.

(** With endpoints of opposite sign the unsigned lane does not interpolate
    between the two [int] values. *)
Example blend_read_mixed_sign :
  interpolate 128 (-500) 500 hw_reset <> -500 + (500 - -500) * 128 / 2 ^ FRACTION_BITS.
Proof. vm_compute. discriminate. Qed.

(* ------------------------------------------------------------------ *)
(** ** The coefficient *)

(** C2: for every raw sample and every calibrated range with [high > low]
    (the three intermediate values fitting an [int]), line 142 computes
    [255 * (raw - low) / (high - low)] with the truncating division of C++
    and stores it into ACCUM1, converted to the register's unsigned word.
    From [raw >= low] on, the quotient is the floor and the register holds
    exactly that number. *)
Theorem fraction_stored (raw calibrated_lo calibrated_hi : Z) (hw : interp_hw) :
  calibrated_lo < calibrated_hi ->
  fits_int (FRACTION_MAX * (raw - calibrated_lo)) ->
  fits_int (calibrated_hi - calibrated_lo) ->
  let q := Z.quot (FRACTION_MAX * (raw - calibrated_lo)) (calibrated_hi - calibrated_lo) in
  set_fraction raw calibrated_lo calibrated_hi hw = Ok (q, write_accum 1 q hw)
  /\ accum1 (write_accum 1 q hw) = to_u32 q
  /\ (calibrated_lo <= raw ->
      q = FRACTION_MAX * (raw - calibrated_lo) / (calibrated_hi - calibrated_lo)
      /\ accum1 (write_accum 1 q hw) = q).
Proof.
  intros Hlt Hn Hr q.
  assert (Hd : fits_int (raw - calibrated_lo)) by int_range.
  assert (Hf : fraction raw calibrated_lo calibrated_hi = Ok q)
    by (apply fraction_defined; assumption || lia).
  split; [now apply set_fraction_run|].
  split; [reflexivity|].
  intros Hge.
  assert (Hq : q = FRACTION_MAX * (raw - calibrated_lo) / (calibrated_hi - calibrated_lo))
    by (apply quot_floor; unfold FRACTION_MAX; lia).
  split; [exact Hq|].
  cbn [accum1 write_accum].
  assert (0 <= q) by (rewrite Hq; apply Z.div_pos; unfold FRACTION_MAX; lia).
  apply to_u32_nonneg; [assumption|].
  apply quot_fits; try assumption; [lia|].
  unfold FRACTION_MAX, INT_MIN. lia.
Qed.

Lemma fraction_stored_witness :
  let q := Z.quot (FRACTION_MAX * (1500 - 900)) (2800 - 900) in
  set_fraction 1500 900 2800 hw_reset = Ok (q, write_accum 1 q hw_reset)
  /\ accum1 (write_accum 1 q hw_reset) = to_u32 q
  /\ (900 <= 1500 ->
      q = FRACTION_MAX * (1500 - 900) / (2800 - 900)
      /\ accum1 (write_accum 1 q hw_reset) = q).
Proof.
  apply (fraction_stored 1500 900 2800 hw_reset); int_range.
Defined.

(** Below the range the truncated quotient is not the floor. *)
Example fraction_below_range :
  fraction 899 900 2800 = Ok 0 /\ FRACTION_MAX * (899 - 900) / (2800 - 900) = -1.
Proof. split; reflexivity. Qed.

(* ------------------------------------------------------------------ *)
(** ** The correction *)

(** C3, as the sketch behaves: for every non-negative [raw_value] (the sum
    fitting an [int]), [raw_value + (raw_value >> 8)] is
    [raw_value + raw_value / 256]: the shift divides by 2^8, not by 255. *)
Theorem correction_divides_by_256 (raw_value : Z) :
  0 <= raw_value ->
  fits_int (raw_value + raw_value / 2 ^ FRACTION_BITS) ->
  hardware_corrected raw_value = Ok (raw_value + raw_value / 2 ^ FRACTION_BITS)
  /\ raw_value / 2 ^ FRACTION_BITS = Z.quot raw_value (2 ^ FRACTION_BITS).
Proof.
  intros H0 Hf. split.
  - unfold hardware_corrected, int_add, int_shr.
    rewrite Z.shiftr_div_pow2 by (unfold FRACTION_BITS; lia).
    now apply checked_fits.
  - symmetry. apply quot_floor; [assumption | unfold FRACTION_BITS; lia].
Qed.

Lemma correction_divides_by_256_witness :
  hardware_corrected 1625 = Ok (1625 + 1625 / 2 ^ FRACTION_BITS)
  /\ 1625 / 2 ^ FRACTION_BITS = Z.quot 1625 (2 ^ FRACTION_BITS).
Proof.
  apply (correction_divides_by_256 1625); [lia | vm_compute; split; discriminate].
Defined.

(** C3 as stated fails at [raw_value = 255]: the shift adds 0, the division
    by 255 adds 1. *)
Lemma correction_not_over_255 :
  hardware_corrected 255 <> Ok (255 + 255 / FRACTION_MAX).
Proof. vm_compute. discriminate. Qed.

(* ------------------------------------------------------------------ *)
(** ** Degenerate ranges *)

Lemma fraction_div_by_zero (raw lo : Z) :
  fits_int (raw - lo) -> fits_int (FRACTION_MAX * (raw - lo)) ->
  fraction raw lo lo = Fault DivByZero.
Proof.
  intros Hd Hn. unfold fraction, int_sub, int_mul, int_div.
  rewrite (checked_fits _ Hd). cbn [CInt.bind].
  rewrite (checked_fits _ Hn). cbn [CInt.bind].
  rewrite Z.sub_diag. reflexivity.
Qed.

Lemma interpolate_flat (a e : Z) (hw : interp_hw) :
  fits_int e -> interpolate a e e hw = e.
Proof.
  intros He. rewrite interpolate_same_sign by (assumption || lia).
  rewrite Z.sub_diag, Z.mul_0_r. cbn. lia.
Qed.

(** C4, as the sketch behaves: the sketch has no range check and no error
    of its own. With [calibrated.high = calibrated.low] the coefficient
    divides by zero, which is undefined in C++ and leaves no value; with
    [calibrated.high < calibrated.low] the coefficient is the truncated
    quotient; the blend takes any two endpoints, and with
    [expected.high = expected.low] it returns that endpoint for every
    fraction. *)
Theorem degenerate_ranges (raw calibrated_lo calibrated_hi : Z) :
  calibrated_hi <= calibrated_lo ->
  fits_int (FRACTION_MAX * (raw - calibrated_lo)) ->
  fits_int (calibrated_hi - calibrated_lo) ->
  (calibrated_hi = calibrated_lo ->
   fraction raw calibrated_lo calibrated_hi = Fault DivByZero
   /\ forall elo ehi hw, map_hardware elo ehi calibrated_lo calibrated_hi raw hw = Fault DivByZero)
  /\ (calibrated_hi < calibrated_lo ->
      fraction raw calibrated_lo calibrated_hi
      = Ok (Z.quot (FRACTION_MAX * (raw - calibrated_lo)) (calibrated_hi - calibrated_lo)))
  /\ (forall a e hw, fits_int e -> interpolate a e e hw = e).
Proof.
  intros Hle Hn Hr.
  assert (Hd : fits_int (raw - calibrated_lo)) by int_range.
  repeat split.
  - subst. now apply fraction_div_by_zero.
  - intros elo ehi hw. subst.
    unfold map_hardware, mbind, store at 1.
    now rewrite (set_fraction_fault _ _ _ _ _ (fraction_div_by_zero _ _ Hd Hn)).
  - intros Hlt. apply fraction_defined; assumption || lia.
  - intros a e hw. apply interpolate_flat.
Qed.

Lemma degenerate_ranges_witness :
  (50 = 50 ->
   fraction 60 50 50 = Fault DivByZero
   /\ forall elo ehi hw, map_hardware elo ehi 50 50 60 hw = Fault DivByZero)
  /\ (50 < 50 ->
      fraction 60 50 50 = Ok (Z.quot (FRACTION_MAX * (60 - 50)) (50 - 50)))
  /\ (forall a e hw, fits_int e -> interpolate a e e hw = e).
Proof.
  apply (degenerate_ranges 60 50 50); int_range.
Defined.

(** C4 as stated fails: with [expected = {100, 100}] the sketch prints
    three values, it does not fail. *)
Lemma flat_expected_range_returns :
  value_of (adc_once 100 100 900 2800 1500 hw_reset)
  = Ok {| soft := 100; hw_raw := 100; hw_corrected := 100 |}
  /\ forall f, value_of (adc_once 100 100 900 2800 1500 hw_reset) <> Fault f.
Proof. split; [reflexivity | intros f; vm_compute; discriminate]. Qed.

(** A calibrated range upside down is mapped without complaint. *)
Example fraction_reversed_range : fraction 1500 2800 900 = Ok 174.
Proof. reflexivity. Qed.

(* ------------------------------------------------------------------ *)
(** ** The constants of the sketch *)

(** C5, as the sketch behaves: with [calibrated = {900, 2800}],
    [expected = {1000, 3000}] and [raw = 1500] the fraction stored is 80,
    the value read back is 1625 and the corrected value is 1631. *)
Theorem reference_scenario (hw : interp_hw) :
  exists r hw',
    adc_once 1000 3000 900 2800 1500 hw = Ok (r, hw')
    /\ accum1 hw' = 80 /\ hw_raw r = 1625 /\ hw_corrected r = 1631.
Proof.
  eexists. eexists. split; [vm_compute; reflexivity|].
  repeat split.
Qed.

(** C5 as stated fails: the sketch does not read back 1627 and 1633. *)
Lemma reference_scenario_not_1627 :
  ~ exists r hw',
      adc_once 1000 3000 900 2800 1500 hw_reset = Ok (r, hw')
      /\ accum1 hw' = 80 /\ hw_raw r = 1627 /\ hw_corrected r = 1633.
Proof.
  intros (r & hw' & Hrun & _ & Hraw & _).
  vm_compute in Hrun. inversion Hrun; subst. discriminate Hraw.
Qed.

(** C9: with the constants of the sketch, the sample [raw = 2800], the top
    of the calibrated range, gets the corrected value 3003, above
    [expected.high = 3000]. *)
Theorem corrected_exceeds_expected_hi (hw : interp_hw) :
  exists r hw',
    adc_once 1000 3000 900 2800 2800 hw = Ok (r, hw')
    /\ hw_raw r = 2992 /\ hw_corrected r = 3003 /\ 3000 < hw_corrected r.
Proof.
  eexists. eexists. split; [vm_compute; reflexivity|].
  repeat split.
Qed.

(** The sweep of the sketch ends on that sample. *)
Example sweep_last_reading :
  exists one sweep hw',
    adc_linear_interpolation hw_reset = Ok ((one, sweep), hw')
    /\ length sweep = 19%nat
    /\ last sweep one = {| soft := 3000; hw_raw := 2992; hw_corrected := 3003 |}.
Proof.
  eexists. eexists. eexists. split; [vm_compute; reflexivity|].
  split; reflexivity.
Qed.

(* ------------------------------------------------------------------ *)
(** ** Samples inside the calibrated range *)

Section InRange.

Variables calibrated_lo calibrated_hi : Z.
Hypothesis calibrated_ordered : calibrated_lo < calibrated_hi.
Hypothesis span_fits : fits_int (FRACTION_MAX * (calibrated_hi - calibrated_lo)).

(** Inside the calibrated range the fraction is defined, is the floor of
    the exact ratio and lies in [0, 255]. *)
Lemma fraction_in_range (raw : Z) :
  calibrated_lo <= raw <= calibrated_hi ->
  fraction raw calibrated_lo calibrated_hi
  = Ok (FRACTION_MAX * (raw - calibrated_lo) / (calibrated_hi - calibrated_lo))
  /\ 0 <= FRACTION_MAX * (raw - calibrated_lo) / (calibrated_hi - calibrated_lo)
     <= FRACTION_MAX.
Proof.
  intros Hraw. unfold FRACTION_MAX in *. split.
  - rewrite <- quot_floor by lia.
    apply fraction_defined; int_range.
  - split.
    + apply Z.div_pos; lia.
    + apply Z.div_le_upper_bound; nia.
Qed.

Lemma fraction_monotone (raw1 raw2 : Z) :
  raw1 <= raw2 ->
  FRACTION_MAX * (raw1 - calibrated_lo) / (calibrated_hi - calibrated_lo)
  <= FRACTION_MAX * (raw2 - calibrated_lo) / (calibrated_hi - calibrated_lo).
Proof.
  intros H. apply Z.div_le_mono; unfold FRACTION_MAX; lia.
Qed.

End InRange.

(** C6, as the sketch behaves: for fixed ranges with [high > low] (the
    expected endpoints of the same sign, no overflow), the value read back
    is non-decreasing in the raw sample as long as the samples stay inside
    the calibrated range. *)
Theorem map_hardware_monotone
  (expected_lo expected_hi calibrated_lo calibrated_hi raw1 raw2 : Z) (hw : interp_hw) :
  calibrated_lo < calibrated_hi ->
  fits_int (FRACTION_MAX * (calibrated_hi - calibrated_lo)) ->
  expected_lo < expected_hi ->
  fits_int expected_lo -> fits_int expected_hi ->
  0 <= expected_lo \/ expected_hi < 0 ->
  calibrated_lo <= raw1 -> raw1 <= raw2 -> raw2 <= calibrated_hi ->
  exists h1 h2,
    value_of (map_hardware expected_lo expected_hi calibrated_lo calibrated_hi raw1 hw) = Ok h1
    /\ value_of (map_hardware expected_lo expected_hi calibrated_lo calibrated_hi raw2 hw) = Ok h2
    /\ h1 <= h2.
Proof.
  intros Hc Hspan He Hl Hh Hs H1 H12 H2.
  destruct (fraction_in_range _ _ Hc Hspan raw1 ltac:(lia)) as [F1 B1].
  destruct (fraction_in_range _ _ Hc Hspan raw2 ltac:(lia)) as [F2 B2].
  pose proof (fraction_monotone calibrated_lo calibrated_hi Hc raw1 raw2 H12) as Hm.
  rewrite (map_hardware_run _ _ _ _ _ _ hw F1), (map_hardware_run _ _ _ _ _ _ hw F2).
  do 2 eexists. split; [reflexivity|]. split; [reflexivity|].
  rewrite !interpolate_same_sign by (assumption || lia).
  unfold FRACTION_MAX in *.
  rewrite !Z.mod_small by lia.
  apply Z.add_le_mono_l, Z.div_le_mono; [lia|].
  apply Z.mul_le_mono_nonneg_r; lia.
Qed.

Lemma map_hardware_monotone_witness :
  exists h1 h2,
    value_of (map_hardware 1000 3000 900 2800 1500 hw_reset) = Ok h1
    /\ value_of (map_hardware 1000 3000 900 2800 1600 hw_reset) = Ok h2
    /\ h1 <= h2.
Proof.
  apply (map_hardware_monotone 1000 3000 900 2800 1500 1600 hw_reset); int_range.
Defined.

(** C6 as stated fails just above the calibrated range: the fraction of
    [raw = 2808] is 256, its low byte is 0 and the value read back drops
    from 2992 to 1000. *)
Lemma map_hardware_drops_above_range :
  2800 <= 2808
  /\ value_of (map_hardware 1000 3000 900 2800 2800 hw_reset) = Ok 2992
  /\ value_of (map_hardware 1000 3000 900 2800 2808 hw_reset) = Ok 1000.
Proof. repeat split; try reflexivity. lia. Qed.

(* ------------------------------------------------------------------ *)
(** ** The endpoints *)

(** C7: for every calibrated range with [high > low] the sample
    [raw = calibrated.low] gets the fraction 0, and for every expected
    range with [high > low] the fraction 0 reads back exactly
    [expected.low]. *)
Theorem low_endpoint
  (expected_lo expected_hi calibrated_lo calibrated_hi : Z) (hw : interp_hw) :
  calibrated_lo < calibrated_hi ->
  fits_int (calibrated_hi - calibrated_lo) ->
  expected_lo < expected_hi ->
  fits_int expected_lo ->
  fraction calibrated_lo calibrated_lo calibrated_hi = Ok 0
  /\ interpolate 0 expected_lo expected_hi hw = expected_lo
  /\ value_of (map_hardware expected_lo expected_hi calibrated_lo calibrated_hi
                 calibrated_lo hw) = Ok expected_lo.
Proof.
  intros Hc Hr He Hl.
  assert (HI : interpolate 0 expected_lo expected_hi hw = expected_lo).
  { unfold interpolate, hardware. rewrite peek1_blend_setup.
    rewrite Z.mod_0_l, Z.mul_0_l by lia.
    change (0 / 256) with 0.
    rewrite to_u32_add_l, Z.add_0_r.
    now apply to_int_to_u32. }
  assert (HF : fraction calibrated_lo calibrated_lo calibrated_hi = Ok 0).
  { rewrite fraction_defined; try assumption; try lia.
    - rewrite Z.sub_diag, Z.mul_0_r. now rewrite Z.quot_0_l by lia.
    - rewrite Z.sub_diag. int_range.
    - rewrite Z.sub_diag. int_range. }
  split; [exact HF|]. split; [exact HI|].
  rewrite (map_hardware_run _ _ _ _ _ _ hw HF). cbn [value_of].
  now rewrite HI.
Qed.

Lemma low_endpoint_witness :
  fraction 900 900 2800 = Ok 0
  /\ interpolate 0 1000 3000 hw_reset = 1000
  /\ value_of (map_hardware 1000 3000 900 2800 900 hw_reset) = Ok 1000.
Proof.
  apply (low_endpoint 1000 3000 900 2800 hw_reset); int_range.
Defined.

(** C8, as the sketch behaves: for every calibrated range with
    [high > low] the sample [raw = calibrated.high] gets the fraction 255,
    and for every expected range with [high > low] whose endpoints have
    the same sign the fraction 255 reads back a value that does not exceed
    [expected.high]. *)
Theorem high_endpoint
  (expected_lo expected_hi calibrated_lo calibrated_hi : Z) (hw : interp_hw) :
  calibrated_lo < calibrated_hi ->
  fits_int (FRACTION_MAX * (calibrated_hi - calibrated_lo)) ->
  expected_lo < expected_hi ->
  fits_int expected_lo -> fits_int expected_hi ->
  0 <= expected_lo \/ expected_hi < 0 ->
  fraction calibrated_hi calibrated_lo calibrated_hi = Ok FRACTION_MAX
  /\ interpolate FRACTION_MAX expected_lo expected_hi hw <= expected_hi.
Proof.
  intros Hc Hspan He Hl Hh Hs. split.
  - rewrite fraction_defined; try assumption; try lia.
    + now rewrite Z.quot_mul by lia.
    + unfold fits_int, INT_MIN, INT_MAX, FRACTION_MAX in *. lia.
    + unfold fits_int, INT_MIN, INT_MAX, FRACTION_MAX in *. lia.
  - rewrite interpolate_same_sign by (assumption || lia).
    pose proof (scaled_span_bounds (FRACTION_MAX mod 256) (expected_hi - expected_lo)
                  ltac:(vm_compute; split; discriminate) ltac:(lia)).
    lia.
Qed.

Lemma high_endpoint_witness :
  fraction 2800 900 2800 = Ok FRACTION_MAX
  /\ interpolate FRACTION_MAX 1000 3000 hw_reset <= 3000.
Proof.
  apply (high_endpoint 1000 3000 900 2800 hw_reset); int_range.
Defined.

(** C8 as stated fails for endpoints of opposite sign: lane 1 is left
    unsigned, BASE0 holds -1 as 4294967295, and the fraction 255 reads
    back a value above [expected.high = 1]. *)
Lemma high_endpoint_mixed_sign :
  -1 < 1 /\ ~ interpolate FRACTION_MAX (-1) 1 hw_reset <= 1.
Proof. split; [lia | vm_compute; intros H; apply H; reflexivity]. Qed.

(* ------------------------------------------------------------------ *)
(** ** Hardware against software *)

(** C10: for every raw sample inside the calibrated range and every pair
    of ranges with [high > low] (expected endpoints of the same sign, in
    particular non-negative; no overflow), the value read back from the
    hardware is at most the value line 147 computes in software. *)
Theorem hardware_below_software
  (expected_lo expected_hi calibrated_lo calibrated_hi raw : Z) (hw : interp_hw) :
  calibrated_lo < calibrated_hi ->
  calibrated_lo <= raw <= calibrated_hi ->
  expected_lo < expected_hi ->
  fits_int expected_lo -> fits_int expected_hi ->
  0 <= expected_lo \/ expected_hi < 0 ->
  fits_int (FRACTION_MAX * (calibrated_hi - calibrated_lo)) ->
  fits_int ((expected_hi - expected_lo) * (calibrated_hi - calibrated_lo)) ->
  exists h s,
    value_of (map_hardware expected_lo expected_hi calibrated_lo calibrated_hi raw hw) = Ok h
    /\ software expected_lo expected_hi calibrated_lo calibrated_hi raw = Ok s
    /\ s = expected_lo + (expected_hi - expected_lo) * (raw - calibrated_lo)
                         / (calibrated_hi - calibrated_lo)
    /\ h <= s.
Proof.
  intros Hc Hraw He Hl Hh Hs Hspan Hprod.
  destruct (fraction_in_range _ _ Hc Hspan raw Hraw) as [F B].
  rewrite (map_hardware_run _ _ _ _ _ _ hw F). cbn [value_of].
  set (D := expected_hi - expected_lo) in *.
  set (R := calibrated_hi - calibrated_lo) in *.
  set (n := raw - calibrated_lo) in *.
  assert (HD : 0 < D) by (unfold D; lia).
  assert (HR : 0 < R) by (unfold R; lia).
  assert (Hn : 0 <= n <= R) by (unfold n, R; lia).
  assert (Hq : 0 <= D * n / R <= D).
  { split; [apply Z.div_pos; nia | apply Z.div_le_upper_bound; nia]. }
  assert (Hsoft : software expected_lo expected_hi calibrated_lo calibrated_hi raw
                  = Ok (expected_lo + D * n / R)).
  { unfold software, int_sub, int_mul, int_div, int_add. fold D R n.
    unfold fits_int, INT_MIN, INT_MAX, FRACTION_MAX in *.
    rewrite (checked_fits D) by (unfold fits_int, INT_MIN, INT_MAX; nia).
    cbn [CInt.bind].
    rewrite (checked_fits n) by (unfold fits_int, INT_MIN, INT_MAX; nia).
    cbn [CInt.bind].
    rewrite (checked_fits (D * n)) by (unfold fits_int, INT_MIN, INT_MAX; nia).
    cbn [CInt.bind].
    rewrite (checked_fits R) by (unfold fits_int, INT_MIN, INT_MAX; nia).
    cbn [CInt.bind].
    destruct (R =? 0) eqn:E; [apply Z.eqb_eq in E; lia|].
    rewrite quot_floor by nia.
    rewrite (checked_fits (D * n / R)) by (unfold fits_int, INT_MIN, INT_MAX; nia).
    cbn [CInt.bind].
    apply checked_fits. unfold fits_int, INT_MIN, INT_MAX.
    assert (HDdef : D = expected_hi - expected_lo) by reflexivity. lia. }
  do 2 eexists. split; [reflexivity|]. split; [exact Hsoft|]. split; [reflexivity|].
  rewrite interpolate_same_sign by (assumption || lia).
  fold D. unfold FRACTION_MAX in *.
  rewrite Z.mod_small by lia.
  apply Z.add_le_mono_l.
  set (a := 255 * n / R) in *.
  assert (Ha : R * a <= 255 * n) by (apply Z.mul_div_le; lia).
  apply Z.div_le_lower_bound; [lia|].
  assert (Hfl : 256 * (a * D / 256) <= a * D) by (apply Z.mul_div_le; lia).
  nia.
Qed.

Lemma hardware_below_software_witness :
  exists h s,
    value_of (map_hardware 1000 3000 900 2800 1500 hw_reset) = Ok h
    /\ software 1000 3000 900 2800 1500 = Ok s
    /\ s = 1000 + (3000 - 1000) * (1500 - 900) / (2800 - 900)
    /\ h <= s.
Proof.
  apply (hardware_below_software 1000 3000 900 2800 1500 hw_reset); int_range.
Defined.

(* ------------------------------------------------------------------ *)
(** ** The times table *)

Section TimesTable.

Lemma value_of_ok {A : Type} (r : result (A * interp_hw)) (a : A) :
  value_of r = Ok a -> exists hw, r = Ok (a, hw).
Proof.
  destruct r as [[a' hw] | f]; cbn; intros H; [|discriminate].
  injection H as ->. now exists hw.
Qed.

Lemma zseq_length (start step : Z) (n : nat) : length (zseq start step n) = n.
Proof.
  revert start. induction n as [|n IH]; intros start; cbn; [reflexivity|].
  now rewrite IH.
Qed.

Lemma zseq_nth (start step : Z) (n i : nat) (d : Z) :
  (i < n)%nat -> nth i (zseq start step n) d = start + step * Z.of_nat i.
Proof.
  revert start i. induction n as [|n IH]; intros start i Hi; [lia|].
  destruct i as [|i]; cbn [zseq nth].
  - lia.
  - rewrite IH by lia. lia.
Qed.

Lemma zseq_in (start step : Z) (n : nat) (j : Z) :
  0 <= step -> In j (zseq start step n) ->
  start <= j <= start + step * (Z.of_nat n - 1).
Proof.
  intros Hs. revert start. induction n as [|n IH]; intros start; cbn [zseq In].
  - tauto.
  - intros [<- | H]; [nia|].
    apply IH in H. nia.
Qed.

(** Lane 0 in its default configuration adds ACCUM0 to BASE0. *)
Lemma peek0_default (hw : interp_hw) :
  ctrl0 hw = interp_default_config ->
  0 <= accum0 hw < 2 ^ 32 ->
  peek 0 hw = to_u32 (base0 hw + accum0 hw).
Proof.
  intros Hc Ha.
  unfold peek, lane_addend, lane_value, lane_ctrl, lane_input, lane_mask.
  rewrite Hc. cbn.
  change 4294967295 with (Z.ones 32).
  rewrite Z.land_ones by lia.
  now rewrite Z.mod_small by lia.
Qed.

Variable step : Z.

Lemma pop0_table (k : Z) (hw : interp_hw) :
  table_at step k hw ->
  fst (pop 0 hw) = to_u32 (step * (k + 1)) /\ table_at step (k + 1) (snd (pop 0 hw)).
Proof.
  intros (Hc & Hb & Ha).
  assert (Hp : peek 0 hw = to_u32 (step * (k + 1))).
  { rewrite peek0_default; [|assumption|rewrite Ha; apply to_u32_range].
    rewrite Hb, Ha. unfold to_u32.
    rewrite <- Zplus_mod. f_equal. lia. }
  split; [exact Hp|].
  unfold table_at. cbn [pop snd ctrl0 base0 accum0].
  now rewrite Hp.
Qed.

Lemma times_loop_rows (n : nat) (i : Z) (hw : interp_hw) :
  table_at step (i - 1) hw ->
  fits_int i -> fits_int (i + Z.of_nat n) ->
  value_of (times_loop n i hw)
  = Ok (map (fun j => (j, to_int (to_u32 (step * j)))) (zseq i 1 n)).
Proof.
  revert i hw. induction n as [|n IH]; intros i hw Ht Hi Hn; [reflexivity|].
  destruct (pop0_table _ _ Ht) as [Hv Ht'].
  replace (i - 1 + 1) with i in * by lia.
  cbn [times_loop zseq map]. unfold mbind at 1.
  destruct (pop 0 hw) as [v hw'] eqn:Ep. cbn [fst snd] in *.
  unfold mbind at 1, eval, int_add.
  rewrite (checked_fits (i + 1)) by int_range.
  specialize (IH (i + 1) hw').
  replace (i + 1 - 1) with i in IH by lia.
  specialize (IH Ht' ltac:(int_range) ltac:(replace (i + 1 + Z.of_nat n)
    with (i + Z.of_nat (S n)) by lia; exact Hn)).
  apply value_of_ok in IH. destruct IH as [hw'' IH].
  unfold mbind, ret. rewrite IH. cbn [value_of]. now rewrite Hv.
Qed.

End TimesTable.

(** The table [times_table] prints, for any increment and any number of
    rows whose products fit an [int]: the peek shows [step] and leaves the
    accumulator alone, then row [i] shows [step * i], whatever the registers
    held before. *)
Theorem times_table_rows (step last : Z) (hw : interp_hw) :
  fits_int step ->
  last < INT_MAX ->
  (forall j, 1 <= j <= last -> fits_int (step * j)) ->
  value_of (times_table_run step last hw)
  = Ok (step, map (fun j => (j, step * j)) (zseq 1 1 (trip_count 1 last 1))).
Proof.
  intros Hs Hl Hprod.
  unfold times_table_run, mbind at 1 2 3 4, store, load.
  set (hw1 := write_base 0 step (write_accum 0 0 (interp_set_config 0 interp_default_config hw))).
  assert (Ht : table_at step (1 - 1) hw1).
  { repeat split. cbn. now rewrite Z.mul_0_r. }
  assert (Hn : Z.of_nat (trip_count 1 last 1) = Z.max 0 last).
  { unfold trip_count. destruct (1 <=? last) eqn:E.
    - apply Z.leb_le in E. rewrite Z.div_1_r. lia.
    - apply Z.leb_gt in E. cbn. lia. }
  pose proof (times_loop_rows step (trip_count 1 last 1) 1 hw1 Ht
                ltac:(int_range) ltac:(rewrite Hn; int_range)) as Hrows.
  apply value_of_ok in Hrows. destruct Hrows as [hw2 Hrows].
  unfold mbind, ret. rewrite Hrows. cbn [value_of]. f_equal. f_equal.
  - destruct Ht as (Hc & Hb & Ha).
    rewrite peek0_default; [|assumption|rewrite Ha; apply to_u32_range].
    rewrite Hb, Ha, Z.mul_0_r. change (to_u32 0) with 0.
    rewrite to_u32_add_l, Z.add_0_r.
    now apply to_int_to_u32.
  - apply map_ext_in. intros j Hj.
    apply zseq_in in Hj; [|lia].
    rewrite to_int_to_u32; [reflexivity|]. apply Hprod. lia.
Qed.

Lemma times_table_rows_witness :
  value_of (times_table_run 9 10 hw_reset)
  = Ok (9, map (fun j => (j, 9 * j)) (zseq 1 1 (trip_count 1 10 1))).
Proof.
  apply (times_table_rows 9 10 hw_reset); int_range.
Defined.

(* ------------------------------------------------------------------ *)
(** ** More on the blend lane *)

(** The hardware looks at the low byte of ACCUM1 only: two fractions that
    agree modulo 256 read back the same value, for any endpoints and
    whatever the registers held before the setup. *)
Theorem interpolate_low_byte (a b expected_lo expected_hi : Z) (hw hw' : interp_hw) :
  a mod 256 = b mod 256 ->
  interpolate a expected_lo expected_hi hw = interpolate b expected_lo expected_hi hw'.
Proof.
  intros H. unfold interpolate, hardware.
  rewrite !peek1_blend_setup. now rewrite H.
Qed.

Lemma interpolate_low_byte_witness :
  interpolate 336 1000 3000 hw_reset
  = interpolate 80 1000 3000 (write_accum 0 7 hw_reset).
Proof.
  apply (interpolate_low_byte 336 80 1000 3000 hw_reset (write_accum 0 7 hw_reset)).
  reflexivity.
Defined.

(** "One key restriction is that 'a' can't be 1" (line 99): whatever is
    stored into ACCUM1, the value read back lies in
    [expected_lo, expected_hi) and never reaches the upper endpoint. *)
Theorem interpolate_below_hi (a expected_lo expected_hi : Z) (hw : interp_hw) :
  expected_lo < expected_hi ->
  fits_int expected_lo -> fits_int expected_hi ->
  0 <= expected_lo \/ expected_hi < 0 ->
  expected_lo <= interpolate a expected_lo expected_hi hw < expected_hi.
Proof.
  intros Hlt Hl Hh Hs.
  rewrite interpolate_same_sign by (assumption || lia).
  pose proof (Z.mod_pos_bound a 256 ltac:(lia)) as Ha.
  set (al := a mod 256) in *. set (D := expected_hi - expected_lo).
  assert (HD : 0 < D) by (unfold D; lia).
  assert (0 <= al * D / 256) by (apply Z.div_pos; nia).
  assert (al * D / 256 < D) by (apply Z.div_lt_upper_bound; nia).
  unfold D in *. lia.
Qed.

Lemma interpolate_below_hi_witness :
  500 <= interpolate 255 500 1000 hw_reset < 1000.
Proof.
  apply (interpolate_below_hi 255 500 1000 hw_reset); int_range.
Defined.

(* ------------------------------------------------------------------ *)
(** ** More on the coefficient *)

(** The expression of line 142 has a value exactly when the scaled
    numerator and the span fit an [int] and the span is not zero. *)
Theorem fraction_defined_iff (raw calibrated_lo calibrated_hi : Z) :
  (exists q, fraction raw calibrated_lo calibrated_hi = Ok q)
  <-> fits_int (FRACTION_MAX * (raw - calibrated_lo))
      /\ fits_int (calibrated_hi - calibrated_lo)
      /\ calibrated_hi <> calibrated_lo.
Proof.
  split.
  - intros [q H]. unfold fraction, int_sub, int_mul, int_div, checked in H.
    destruct (fits_intb (raw - calibrated_lo)) eqn:E1; [|discriminate].
    cbn [CInt.bind] in H.
    destruct (fits_intb (FRACTION_MAX * (raw - calibrated_lo))) eqn:E2; [|discriminate].
    cbn [CInt.bind] in H.
    destruct (fits_intb (calibrated_hi - calibrated_lo)) eqn:E3; [|discriminate].
    cbn [CInt.bind] in H.
    destruct (calibrated_hi - calibrated_lo =? 0) eqn:E4; [discriminate|].
    apply fits_intb_spec in E2, E3. apply Z.eqb_neq in E4.
    repeat split; try assumption; try apply E2; try apply E3. lia.
  - intros (Hn & Hr & Hne). eexists.
    apply fraction_defined; try assumption. int_range.
Qed.

(** Before the byte is cut off, the coefficient itself never decreases
    when the raw sample grows, inside the calibrated range or not. *)
Theorem fraction_monotone_everywhere (raw1 raw2 calibrated_lo calibrated_hi : Z) :
  calibrated_lo < calibrated_hi ->
  raw1 <= raw2 ->
  fits_int (FRACTION_MAX * (raw1 - calibrated_lo)) ->
  fits_int (FRACTION_MAX * (raw2 - calibrated_lo)) ->
  fits_int (calibrated_hi - calibrated_lo) ->
  exists q1 q2,
    fraction raw1 calibrated_lo calibrated_hi = Ok q1
    /\ fraction raw2 calibrated_lo calibrated_hi = Ok q2
    /\ q1 <= q2.
Proof.
  intros Hc H12 H1 H2 Hr.
  do 2 eexists. split; [|split].
  - apply fraction_defined; try assumption; int_range.
  - apply fraction_defined; try assumption; int_range.
  - apply Z.quot_le_mono; unfold FRACTION_MAX; lia.
Qed.

Lemma fraction_monotone_everywhere_witness :
  exists q1 q2,
    fraction 800 900 2800 = Ok q1 /\ fraction 2900 900 2800 = Ok q2 /\ q1 <= q2.
Proof.
  apply (fraction_monotone_everywhere 800 2900 900 2800); int_range.
Defined.

(* ------------------------------------------------------------------ *)
(** ** The software mapping *)

(** Line 147 hits both endpoints exactly: the bottom of the calibrated
    range maps to [expected_lo] and the top to [expected_hi], for any
    non-empty calibrated range and any expected endpoints, ascending or
    not. *)
Theorem software_endpoints (expected_lo expected_hi calibrated_lo calibrated_hi : Z) :
  calibrated_hi <> calibrated_lo ->
  fits_int expected_lo -> fits_int expected_hi ->
  fits_int (expected_hi - expected_lo) ->
  fits_int (calibrated_hi - calibrated_lo) ->
  fits_int ((expected_hi - expected_lo) * (calibrated_hi - calibrated_lo)) ->
  software expected_lo expected_hi calibrated_lo calibrated_hi calibrated_lo = Ok expected_lo
  /\ software expected_lo expected_hi calibrated_lo calibrated_hi calibrated_hi = Ok expected_hi.
Proof.
  intros Hne Hl Hh HD HR Hprod.
  assert (Hz : (calibrated_hi - calibrated_lo =? 0) = false) by (apply Z.eqb_neq; lia).
  split; unfold software, int_sub, int_mul, int_div, int_add.
  - rewrite (checked_fits _ HD). cbn [CInt.bind].
    rewrite Z.sub_diag. change (checked 0) with (Ok 0). cbn [CInt.bind].
    rewrite Z.mul_0_r. change (checked 0) with (Ok 0). cbn [CInt.bind].
    rewrite (checked_fits _ HR). cbn [CInt.bind].
    rewrite Hz, Z.quot_0_l by lia.
    change (checked 0) with (Ok 0). cbn [CInt.bind].
    rewrite Z.add_0_r. now apply checked_fits.
  - rewrite (checked_fits _ HD). cbn [CInt.bind].
    rewrite (checked_fits _ HR). cbn [CInt.bind].
    rewrite (checked_fits _ Hprod). cbn [CInt.bind].
    rewrite Hz, Z.quot_mul by lia.
    rewrite (checked_fits _ HD). cbn [CInt.bind].
    replace (expected_lo + (expected_hi - expected_lo)) with expected_hi by lia.
    now apply checked_fits.
Qed.

Lemma software_endpoints_witness :
  software 1000 3000 900 2800 900 = Ok 1000
  /\ software 1000 3000 900 2800 2800 = Ok 3000.
Proof.
  apply (software_endpoints 1000 3000 900 2800); int_range.
Defined.

(* ------------------------------------------------------------------ *)
(** ** The statements as functions of the locals *)

Section Ready.

Variables expected_lo expected_hi calibrated_lo calibrated_hi : Z.

Lemma lanes_ready_setup (hw : interp_hw) :
  lanes_ready expected_lo expected_hi (blend_setup expected_lo expected_hi hw).
Proof. repeat split. Qed.

Lemma lanes_ready_write_accum (a : Z) (hw : interp_hw) :
  lanes_ready expected_lo expected_hi hw ->
  lanes_ready expected_lo expected_hi (write_accum 1 a hw).
Proof. intros H. exact H. Qed.

Lemma alpha_ready (a : Z) (hw : interp_hw) :
  ctrl1 hw = interp_default_config ->
  alpha (write_accum 1 a hw) = a mod 256.
Proof.
  intros Hc.
  unfold alpha, lane_value, lane_ctrl, lane_input, lane_mask.
  cbn [write_accum ctrl1 accum1 accum0]. rewrite Hc. cbn.
  change 4294967295 with (Z.ones 32).
  change 255 with (Z.ones 8).
  rewrite !Z.land_ones by lia.
  unfold to_u32. rewrite Z.mod_mod by lia.
  change (2 ^ 32) with (2 ^ 8 * 2 ^ 24).
  rewrite Z.rem_mul_r by lia.
  change (2 ^ 8) with 256.
  rewrite Z.mul_comm, Z.mod_add by lia.
  apply Z.mod_mod. lia.
Qed.

(** On lanes that are set up, the read after a store of [a] is the blend
    of the two endpoints. *)
Lemma hardware_ready (a : Z) (hw : interp_hw) :
  lanes_ready expected_lo expected_hi hw ->
  hardware (write_accum 1 a hw) = blend_value a expected_lo expected_hi.
Proof.
  intros (H0 & H1 & Hb0 & Hb1).
  pose proof (alpha_ready a hw H1) as Ha.
  set (hw1 := write_accum 1 a hw) in *.
  assert (Hb : blend (ctrl0 hw1) = true) by (cbn; now rewrite H0).
  assert (Hs : is_signed (ctrl1 hw1) = false) by (cbn; now rewrite H1).
  assert (E0 : base0 hw1 = to_u32 expected_lo) by exact Hb0.
  assert (E1 : base1 hw1 = to_u32 expected_hi) by exact Hb1.
  unfold hardware, blend_value, peek, blend_result, blend_operand.
  rewrite Hb, Hs, E0, E1, Ha. now rewrite shiftr8_div.
Qed.

Lemma sample_value_fault (raw : Z) (f : fault) :
  fraction raw calibrated_lo calibrated_hi = Fault f ->
  sample_value expected_lo expected_hi calibrated_lo calibrated_hi raw = Fault f.
Proof. intros H. unfold sample_value. now rewrite H. Qed.

Lemma adc_sample_ready (raw : Z) (hw : interp_hw) :
  lanes_ready expected_lo expected_hi hw ->
  adc_sample expected_lo expected_hi calibrated_lo calibrated_hi raw hw
  = match fraction raw calibrated_lo calibrated_hi with
    | Ok a =>
        match sample_value expected_lo expected_hi calibrated_lo calibrated_hi raw with
        | Ok r => Ok (r, write_accum 1 a hw)
        | Fault f => Fault f
        end
    | Fault f => Fault f
    end.
Proof.
  intros Hr. unfold adc_sample, sample_value, mbind at 1.
  destruct (fraction raw calibrated_lo calibrated_hi) as [a | f] eqn:Ef.
  - rewrite (set_fraction_run _ _ _ _ hw Ef). cbn [CInt.bind].
    unfold mbind at 1, eval.
    destruct (software expected_lo expected_hi calibrated_lo calibrated_hi raw)
      as [s | f]; [|reflexivity].
    cbn [CInt.bind]. unfold mbind at 1, load.
    rewrite (hardware_ready a hw Hr).
    unfold mbind, ret.
    destruct (hardware_corrected (blend_value a expected_lo expected_hi)); reflexivity.
  - now rewrite (set_fraction_fault _ _ _ _ hw Ef).
Qed.

Lemma adc_loop_ready (n : nat) (adc_val : Z) (hw : interp_hw) :
  lanes_ready expected_lo expected_hi hw ->
  value_of (adc_loop n expected_lo expected_hi calibrated_lo calibrated_hi adc_val hw)
  = sweep_value n expected_lo expected_hi calibrated_lo calibrated_hi adc_val.
Proof.
  revert adc_val hw. induction n as [|n IH]; intros adc_val hw Hr; [reflexivity|].
  cbn [adc_loop sweep_value]. unfold mbind at 1.
  rewrite (adc_sample_ready adc_val hw Hr).
  destruct (fraction adc_val calibrated_lo calibrated_hi) as [a | f] eqn:Ef.
  - destruct (sample_value expected_lo expected_hi calibrated_lo calibrated_hi adc_val)
      as [r | f]; [|reflexivity].
    cbn [CInt.bind]. unfold mbind at 1, eval.
    destruct (int_add adc_val 100) as [next | f]; [|reflexivity].
    cbn [CInt.bind].
    specialize (IH next (write_accum 1 a hw) (lanes_ready_write_accum a hw Hr)).
    unfold mbind, ret.
    destruct (adc_loop n expected_lo expected_hi calibrated_lo calibrated_hi next
                (write_accum 1 a hw)) as [[rs hw'] | f];
      cbn [value_of] in IH; rewrite <- IH; reflexivity.
  - now rewrite (sample_value_fault _ _ Ef).
Qed.

Lemma adc_once_value (raw : Z) (hw : interp_hw) :
  value_of (adc_once expected_lo expected_hi calibrated_lo calibrated_hi raw hw)
  = sample_value expected_lo expected_hi calibrated_lo calibrated_hi raw.
Proof.
  unfold adc_once, mbind, store.
  rewrite (adc_sample_ready raw _ (lanes_ready_setup hw)).
  destruct (fraction raw calibrated_lo calibrated_hi) as [a | f] eqn:Ef.
  - destruct (sample_value expected_lo expected_hi calibrated_lo calibrated_hi raw);
      reflexivity.
  - now rewrite (sample_value_fault _ _ Ef).
Qed.

Lemma adc_run_value (raw : Z) (hw : interp_hw) :
  value_of (adc_run expected_lo expected_hi calibrated_lo calibrated_hi raw hw)
  = (one <- sample_value expected_lo expected_hi calibrated_lo calibrated_hi raw ;;
     rows <- sweep_value (trip_count 1000 calibrated_hi 100)
               expected_lo expected_hi calibrated_lo calibrated_hi 1000 ;;
     Ok (one, rows))%result.
Proof.
  unfold adc_run, mbind at 1, adc_once, mbind at 1, store.
  rewrite (adc_sample_ready raw _ (lanes_ready_setup hw)).
  destruct (fraction raw calibrated_lo calibrated_hi) as [a | f] eqn:Ef.
  - destruct (sample_value expected_lo expected_hi calibrated_lo calibrated_hi raw)
      as [one | f]; [|reflexivity].
    cbn [CInt.bind].
    pose proof (adc_loop_ready (trip_count 1000 calibrated_hi 100) 1000
                  (write_accum 1 a (blend_setup expected_lo expected_hi hw))
                  (lanes_ready_write_accum a _ (lanes_ready_setup hw))) as Hl.
    unfold mbind, ret.
    destruct (adc_loop (trip_count 1000 calibrated_hi 100) expected_lo expected_hi
                calibrated_lo calibrated_hi 1000
                (write_accum 1 a (blend_setup expected_lo expected_hi hw)))
      as [[rs hw'] | f]; cbn [value_of] in Hl; rewrite <- Hl; reflexivity.
  - now rewrite (sample_value_fault _ _ Ef).
Qed.

End Ready.

(** What [adc_linear_interpolation] prints, faults included, does not
    depend on what the interpolator held before the call: a pass of
    [loop] after another pass, or after [times_table], prints the same
    numbers. *)
Theorem adc_run_state_independent
  (expected_lo expected_hi calibrated_lo calibrated_hi raw : Z) (hw hw' : interp_hw) :
  value_of (adc_run expected_lo expected_hi calibrated_lo calibrated_hi raw hw)
  = value_of (adc_run expected_lo expected_hi calibrated_lo calibrated_hi raw hw').
Proof. now rewrite !adc_run_value. Qed.

(* ------------------------------------------------------------------ *)
(** ** The readings inside the calibrated range, in closed form *)

Lemma blend_value_same_sign (a lo hi : Z) :
  fits_int lo -> fits_int hi -> lo <= hi -> 0 <= lo \/ hi < 0 ->
  blend_value a lo hi = lo + (a mod 256) * (hi - lo) / 256.
Proof.
  intros Hl Hh Hle Hs.
  rewrite <- (interpolate_same_sign hw_reset a lo hi Hl Hh Hle Hs).
  unfold interpolate, hardware. now rewrite peek1_blend_setup.
Qed.

(** The loop header [for (v = start; v <= stop; v += step)] visits values
    between [start] and [stop] only. *)
Lemma zseq_trip_in (start stop step v : Z) :
  0 < step ->
  In v (zseq start step (trip_count start stop step)) -> start <= v <= stop.
Proof.
  intros Hs Hin. unfold trip_count in Hin.
  destruct (start <=? stop) eqn:E; [|contradiction].
  apply Z.leb_le in E.
  apply zseq_in in Hin; [|lia].
  rewrite Z2Nat.id in Hin by (pose proof (Z.div_pos (stop - start) step); lia).
  pose proof (Z.mul_div_le (stop - start) step Hs). lia.
Qed.

Section ClosedForm.

Variables expected_lo expected_hi calibrated_lo calibrated_hi : Z.
Hypothesis calibrated_ordered : calibrated_lo < calibrated_hi.
Hypothesis expected_ordered : 0 <= expected_lo < expected_hi.
Hypothesis expected_hi_fits : fits_int expected_hi.
Hypothesis span_fits : fits_int (FRACTION_MAX * (calibrated_hi - calibrated_lo)).
Hypothesis product_fits :
  fits_int ((expected_hi - expected_lo) * (calibrated_hi - calibrated_lo)).

Let D := expected_hi - expected_lo.
Let R := calibrated_hi - calibrated_lo.

Lemma software_in_range (raw : Z) :
  calibrated_lo <= raw <= calibrated_hi ->
  software expected_lo expected_hi calibrated_lo calibrated_hi raw
  = Ok (expected_lo + D * (raw - calibrated_lo) / R)
  /\ 0 <= D * (raw - calibrated_lo) / R <= D.
Proof.
  intros Hraw. set (n := raw - calibrated_lo).
  assert (HD : 0 < D) by (unfold D; lia).
  assert (HR : 0 < R) by (unfold R; lia).
  assert (Hn : 0 <= n <= R) by (unfold n, R; lia).
  assert (HDdef : D = expected_hi - expected_lo) by reflexivity.
  assert (HP : fits_int (D * R)) by exact product_fits.
  assert (Hq : 0 <= D * n / R <= D).
  { split; [apply Z.div_pos; nia | apply Z.div_le_upper_bound; nia]. }
  split; [|exact Hq].
  unfold software, int_sub, int_mul, int_div, int_add. fold D R n.
  unfold fits_int, INT_MIN, INT_MAX in *.
  rewrite (checked_fits D) by (unfold fits_int, INT_MIN, INT_MAX; nia).
  cbn [CInt.bind].
  rewrite (checked_fits n) by (unfold fits_int, INT_MIN, INT_MAX; nia).
  cbn [CInt.bind].
  rewrite (checked_fits (D * n)) by (unfold fits_int, INT_MIN, INT_MAX; nia).
  cbn [CInt.bind].
  rewrite (checked_fits R) by (unfold fits_int, INT_MIN, INT_MAX; nia).
  cbn [CInt.bind].
  destruct (R =? 0) eqn:E; [apply Z.eqb_eq in E; lia|].
  rewrite quot_floor by nia.
  rewrite (checked_fits (D * n / R)) by (unfold fits_int, INT_MIN, INT_MAX; nia).
  cbn [CInt.bind].
  apply checked_fits. unfold fits_int, INT_MIN, INT_MAX. lia.
Qed.

(** The three closed forms are ordered, and the hardware value is close
    to the software value. *)
Lemma reading_in_range_bounds (raw : Z) :
  calibrated_lo <= raw <= calibrated_hi ->
  let r := reading_in_range expected_lo expected_hi calibrated_lo calibrated_hi raw in
  expected_lo <= hw_raw r /\ hw_raw r <= soft r /\ soft r <= expected_hi
  /\ soft r - hw_raw r <= D / 128 + 1.
Proof.
  intros Hraw. cbn [reading_in_range hw_raw soft]. fold D R.
  set (n := raw - calibrated_lo).
  assert (HD : 0 < D) by (unfold D; lia).
  assert (HR : 0 < R) by (unfold R; lia).
  assert (Hn : 0 <= n <= R) by (unfold n, R; lia).
  unfold FRACTION_MAX.
  set (a := 255 * n / R). set (q1 := D * n / R). set (q2 := a * D / 256).
  assert (Ha0 : 0 <= a) by (apply Z.div_pos; lia).
  assert (Ha1 : R * a <= 255 * n) by (apply Z.mul_div_le; lia).
  assert (Ha2 : 255 * n < R * (a + 1)).
  { pose proof (Z.mul_succ_div_gt (255 * n) R HR). fold a in H. lia. }
  assert (Hq1a : R * q1 <= D * n) by (apply Z.mul_div_le; lia).
  assert (Hq1b : D * n < R * (q1 + 1)).
  { pose proof (Z.mul_succ_div_gt (D * n) R HR). fold q1 in H. lia. }
  assert (Hq2a : 256 * q2 <= a * D) by (apply Z.mul_div_le; lia).
  assert (Hq2b : a * D < 256 * (q2 + 1)).
  { pose proof (Z.mul_succ_div_gt (a * D) 256 ltac:(lia)). fold q2 in H. lia. }
  assert (Hq2 : 0 <= q2) by (apply Z.div_pos; nia).
  assert (Hle : q2 <= q1).
  { apply Z.div_le_lower_bound; [lia|]. nia. }
  assert (Hq1 : q1 <= D) by (apply Z.div_le_upper_bound; nia).
  assert (HDdef : D = expected_hi - expected_lo) by reflexivity.
  repeat split; try lia.
  pose proof (Z.mul_succ_div_gt D 128 ltac:(lia)) as Ht.
  set (t := D / 128) in *.
  assert (Hkey : 256 * R * (q1 - q2) <= 2 * D * R + 255 * R - D).
  { assert (R * (256 * q2) >= R * (a * D - 255)) by nia.
    assert (D * (R * a) >= D * (255 * n - R + 1)) by nia.
    nia. }
  nia.
Qed.

Hypothesis corrected_fits : fits_int (expected_hi + expected_hi / 256).

Lemma sample_value_in_range (raw : Z) :
  calibrated_lo <= raw <= calibrated_hi ->
  sample_value expected_lo expected_hi calibrated_lo calibrated_hi raw
  = Ok (reading_in_range expected_lo expected_hi calibrated_lo calibrated_hi raw).
Proof.
  intros Hraw.
  destruct (fraction_in_range _ _ calibrated_ordered span_fits raw Hraw) as [F B].
  destruct (software_in_range raw Hraw) as [S _].
  destruct (reading_in_range_bounds raw Hraw) as (B1 & B2 & B3 & _).
  unfold sample_value. rewrite F, S. cbn [CInt.bind].
  assert (Hl : fits_int expected_lo) by int_range.
  rewrite blend_value_same_sign by (assumption || lia).
  unfold FRACTION_MAX in B. rewrite Z.mod_small by (unfold FRACTION_MAX; lia).
  cbn [reading_in_range hw_raw soft] in B1, B2, B3.
  set (h := expected_lo
            + FRACTION_MAX * (raw - calibrated_lo) / (calibrated_hi - calibrated_lo)
              * (expected_hi - expected_lo) / 256) in *.
  unfold hardware_corrected, int_add, int_shr, FRACTION_BITS.
  rewrite shiftr8_div.
  rewrite checked_fits; [reflexivity|].
  assert (0 <= h / 256) by (apply Z.div_pos; lia).
  assert (h / 256 <= expected_hi / 256) by (apply Z.div_le_mono; lia).
  int_range.
Qed.

Hypothesis calibrated_lo_fits : fits_int calibrated_lo.
Hypothesis increment_fits : fits_int (calibrated_hi + 100).

Lemma sweep_value_in_range (n : nat) (start : Z) :
  (forall v, In v (zseq start 100 n) -> calibrated_lo <= v <= calibrated_hi) ->
  sweep_value n expected_lo expected_hi calibrated_lo calibrated_hi start
  = Ok (map (reading_in_range expected_lo expected_hi calibrated_lo calibrated_hi)
          (zseq start 100 n)).
Proof.
  revert start. induction n as [|n IH]; intros start Hin; [reflexivity|].
  cbn [sweep_value zseq map].
  assert (Hs : calibrated_lo <= start <= calibrated_hi) by (apply Hin; now left).
  rewrite (sample_value_in_range start Hs). cbn [CInt.bind].
  unfold int_add. rewrite checked_fits by int_range. cbn [CInt.bind].
  rewrite IH; [reflexivity|].
  intros v Hv. apply Hin. now right.
Qed.

End ClosedForm.

(* ------------------------------------------------------------------ *)
(** ** One sample, start to end *)

(** A sample changes ACCUM1 and nothing else: the bases, the two lane
    configurations and ACCUM0 are as they were, so the setup done once
    before the loop (lines 129-139) holds for every pass. *)
Theorem adc_sample_frame
  (expected_lo expected_hi calibrated_lo calibrated_hi raw : Z)
  (hw hw' : interp_hw) (r : readings) :
  adc_sample expected_lo expected_hi calibrated_lo calibrated_hi raw hw = Ok (r, hw') ->
  exists a,
    fraction raw calibrated_lo calibrated_hi = Ok a
    /\ hw' = write_accum 1 a hw
    /\ accum0 hw' = accum0 hw /\ base0 hw' = base0 hw /\ base1 hw' = base1 hw
    /\ base2 hw' = base2 hw /\ ctrl0 hw' = ctrl0 hw /\ ctrl1 hw' = ctrl1 hw.
Proof.
  unfold adc_sample, set_fraction, mbind, eval, store, ret, load. intros H.
  destruct (fraction raw calibrated_lo calibrated_hi) as [a | f]; [|discriminate].
  destruct (software expected_lo expected_hi calibrated_lo calibrated_hi raw);
    [|discriminate].
  destruct (hardware_corrected (hardware (write_accum 1 a hw))); [|discriminate].
  injection H as _ <-. exists a. repeat split.
Qed.

Lemma adc_sample_frame_witness :
  exists a,
    fraction 1500 900 2800 = Ok a
    /\ write_accum 1 80 (blend_setup 1000 3000 hw_reset)
       = write_accum 1 a (blend_setup 1000 3000 hw_reset)
    /\ accum0 (write_accum 1 80 (blend_setup 1000 3000 hw_reset))
       = accum0 (blend_setup 1000 3000 hw_reset)
    /\ base0 (write_accum 1 80 (blend_setup 1000 3000 hw_reset))
       = base0 (blend_setup 1000 3000 hw_reset)
    /\ base1 (write_accum 1 80 (blend_setup 1000 3000 hw_reset))
       = base1 (blend_setup 1000 3000 hw_reset)
    /\ base2 (write_accum 1 80 (blend_setup 1000 3000 hw_reset))
       = base2 (blend_setup 1000 3000 hw_reset)
    /\ ctrl0 (write_accum 1 80 (blend_setup 1000 3000 hw_reset))
       = ctrl0 (blend_setup 1000 3000 hw_reset)
    /\ ctrl1 (write_accum 1 80 (blend_setup 1000 3000 hw_reset))
       = ctrl1 (blend_setup 1000 3000 hw_reset).
Proof.
  apply (adc_sample_frame 1000 3000 900 2800 1500 (blend_setup 1000 3000 hw_reset)
           (write_accum 1 80 (blend_setup 1000 3000 hw_reset))
           {| soft := 1631; hw_raw := 1625; hw_corrected := 1631 |}).
  reflexivity.
Defined.

(** For a sample inside the calibrated range and non-negative expected
    endpoints, lines 129-149 run without fault; the value read back lies
    between [expected_lo] and the software value, and falls short of the
    software value by at most a 128th of the expected span plus one. *)
Theorem adc_once_accuracy
  (expected_lo expected_hi calibrated_lo calibrated_hi raw : Z) (hw : interp_hw) :
  calibrated_lo < calibrated_hi ->
  calibrated_lo <= raw <= calibrated_hi ->
  0 <= expected_lo < expected_hi ->
  fits_int expected_hi ->
  fits_int (FRACTION_MAX * (calibrated_hi - calibrated_lo)) ->
  fits_int ((expected_hi - expected_lo) * (calibrated_hi - calibrated_lo)) ->
  fits_int (expected_hi + expected_hi / 256) ->
  exists r,
    value_of (adc_once expected_lo expected_hi calibrated_lo calibrated_hi raw hw) = Ok r
    /\ expected_lo <= hw_raw r /\ hw_raw r <= soft r /\ soft r <= expected_hi
    /\ soft r - hw_raw r <= (expected_hi - expected_lo) / 128 + 1.
Proof.
  intros Hc Hraw He Hh Hspan Hprod Hcorr.
  exists (reading_in_range expected_lo expected_hi calibrated_lo calibrated_hi raw).
  split.
  - rewrite adc_once_value. now apply sample_value_in_range.
  - now apply reading_in_range_bounds.
Qed.

Lemma adc_once_accuracy_witness :
  exists r,
    value_of (adc_once 1000 3000 900 2800 2500 hw_reset) = Ok r
    /\ 1000 <= hw_raw r /\ hw_raw r <= soft r /\ soft r <= 3000
    /\ soft r - hw_raw r <= (3000 - 1000) / 128 + 1.
Proof.
  apply (adc_once_accuracy 1000 3000 900 2800 2500 hw_reset);
    try int_range; vm_compute; split; discriminate.
Defined.

(** Under the same conditions the corrected value is the value read back
    plus its 256th, never below the value read back; it exceeds the
    software value by at most a 256th of it and falls short of it by at
    most a 128th of the expected span plus one. *)
Theorem adc_once_corrected_bounds
  (expected_lo expected_hi calibrated_lo calibrated_hi raw : Z) (hw : interp_hw) :
  calibrated_lo < calibrated_hi ->
  calibrated_lo <= raw <= calibrated_hi ->
  0 <= expected_lo < expected_hi ->
  fits_int expected_hi ->
  fits_int (FRACTION_MAX * (calibrated_hi - calibrated_lo)) ->
  fits_int ((expected_hi - expected_lo) * (calibrated_hi - calibrated_lo)) ->
  fits_int (expected_hi + expected_hi / 256) ->
  exists r,
    value_of (adc_once expected_lo expected_hi calibrated_lo calibrated_hi raw hw) = Ok r
    /\ hw_corrected r = hw_raw r + hw_raw r / 256
    /\ hw_raw r <= hw_corrected r
    /\ hw_corrected r <= soft r + soft r / 256
    /\ soft r - ((expected_hi - expected_lo) / 128 + 1) <= hw_corrected r.
Proof.
  intros Hc Hraw He Hh Hspan Hprod Hcorr.
  exists (reading_in_range expected_lo expected_hi calibrated_lo calibrated_hi raw).
  split; [rewrite adc_once_value; now apply sample_value_in_range|].
  destruct (reading_in_range_bounds expected_lo expected_hi calibrated_lo calibrated_hi
              Hc He raw Hraw) as (B1 & B2 & B3 & B4).
  set (r := reading_in_range expected_lo expected_hi calibrated_lo calibrated_hi raw) in *.
  assert (Hc' : hw_corrected r = hw_raw r + hw_raw r / 256) by reflexivity.
  assert (0 <= hw_raw r / 256) by (apply Z.div_pos; lia).
  assert (hw_raw r / 256 <= soft r / 256) by (apply Z.div_le_mono; lia).
  repeat split; lia.
Qed.

Lemma adc_once_corrected_bounds_witness :
  exists r,
    value_of (adc_once 1000 3000 900 2800 2800 hw_reset) = Ok r
    /\ hw_corrected r = hw_raw r + hw_raw r / 256
    /\ hw_raw r <= hw_corrected r
    /\ hw_corrected r <= soft r + soft r / 256
    /\ soft r - ((3000 - 1000) / 128 + 1) <= hw_corrected r.
Proof.
  apply (adc_once_corrected_bounds 1000 3000 900 2800 2800 hw_reset);
    try int_range; vm_compute; split; discriminate.
Defined.

(* ------------------------------------------------------------------ *)
(** ** The sweep *)

Lemma zseq_in_iff (start step : Z) (n : nat) (v : Z) :
  In v (zseq start step n)
  <-> exists i, (i < n)%nat /\ v = start + step * Z.of_nat i.
Proof.
  split.
  - intros H. destruct (In_nth _ _ 0 H) as (i & Hi & Hv).
    rewrite zseq_length in Hi. exists i. split; [assumption|].
    now rewrite zseq_nth in Hv by assumption.
  - intros (i & Hi & ->).
    rewrite <- (zseq_nth start step n i 0 Hi).
    apply nth_In. now rewrite zseq_length.
Qed.

(** The loop headers of lines 57 and 156,
    [for (v = start; v <= stop; v += step)], run the body for exactly the
    values [start + k * step] that do not exceed [stop]: none when
    [stop < start]. *)
Theorem sweep_visits (start stop step v : Z) :
  0 < step ->
  (In v (zseq start step (trip_count start stop step))
   <-> exists k, 0 <= k /\ v = start + step * k /\ v <= stop).
Proof.
  intros Hs. rewrite zseq_in_iff. unfold trip_count. split.
  - intros (i & Hi & ->). exists (Z.of_nat i).
    destruct (start <=? stop) eqn:E; [|lia].
    apply Z.leb_le in E.
    pose proof (Z.div_pos (stop - start) step ltac:(lia) Hs).
    pose proof (Z.mul_div_le (stop - start) step Hs). nia.
  - intros (k & Hk & -> & Hle). exists (Z.to_nat k).
    rewrite Z2Nat.id by assumption. split; [|reflexivity].
    destruct (start <=? stop) eqn:E; [|apply Z.leb_gt in E; nia].
    assert (k <= (stop - start) / step) by (apply Z.div_le_lower_bound; lia).
    lia.
Qed.

Lemma sweep_visits_witness :
  In 2800 (zseq 1000 100 (trip_count 1000 2800 100))
  <-> exists k, 0 <= k /\ 2800 = 1000 + 100 * k /\ 2800 <= 2800.
Proof.
  apply (sweep_visits 1000 2800 100 2800). lia.
Defined.

(** [adc_linear_interpolation] in closed form. With the calibrated range
    starting at or below 1000, a sample inside it and non-negative
    expected endpoints (no overflow), the function runs without fault and
    prints, for the single sample and for every value 1000, 1100, ... up
    to [calibrated_hi], the three closed-form numbers of that value. *)
Theorem adc_run_closed_form
  (expected_lo expected_hi calibrated_lo calibrated_hi raw : Z) (hw : interp_hw) :
  calibrated_lo < calibrated_hi ->
  calibrated_lo <= raw <= calibrated_hi ->
  calibrated_lo <= 1000 ->
  0 <= expected_lo < expected_hi ->
  fits_int expected_hi ->
  fits_int calibrated_lo ->
  fits_int (calibrated_hi + 100) ->
  fits_int (FRACTION_MAX * (calibrated_hi - calibrated_lo)) ->
  fits_int ((expected_hi - expected_lo) * (calibrated_hi - calibrated_lo)) ->
  fits_int (expected_hi + expected_hi / 256) ->
  value_of (adc_run expected_lo expected_hi calibrated_lo calibrated_hi raw hw)
  = Ok (reading_in_range expected_lo expected_hi calibrated_lo calibrated_hi raw,
        map (reading_in_range expected_lo expected_hi calibrated_lo calibrated_hi)
          (zseq 1000 100 (trip_count 1000 calibrated_hi 100))).
Proof.
  intros Hc Hraw Hlo He Hh Hcl Hinc Hspan Hprod Hcorr.
  rewrite adc_run_value.
  rewrite sample_value_in_range by assumption. cbn [CInt.bind].
  rewrite sweep_value_in_range; try assumption; [reflexivity|].
  intros v Hv. apply zseq_trip_in in Hv; lia.
Qed.

Lemma adc_run_closed_form_witness :
  value_of (adc_run 1000 3000 900 2800 1500 hw_reset)
  = Ok (reading_in_range 1000 3000 900 2800 1500,
        map (reading_in_range 1000 3000 900 2800)
          (zseq 1000 100 (trip_count 1000 2800 100))).
Proof.
  apply (adc_run_closed_form 1000 3000 900 2800 1500 hw_reset);
    try int_range; vm_compute; split; discriminate.
Defined.

Lemma hw_raw_in_range_monotone
  (expected_lo expected_hi calibrated_lo calibrated_hi v1 v2 : Z) :
  calibrated_lo < calibrated_hi -> expected_lo < expected_hi ->
  calibrated_lo <= v1 -> v1 <= v2 ->
  hw_raw (reading_in_range expected_lo expected_hi calibrated_lo calibrated_hi v1)
  <= hw_raw (reading_in_range expected_lo expected_hi calibrated_lo calibrated_hi v2).
Proof.
  intros Hc He H1 H12. cbn [reading_in_range hw_raw].
  pose proof (fraction_monotone calibrated_lo calibrated_hi Hc v1 v2 H12) as Hm.
  apply Z.add_le_mono_l, Z.div_le_mono; [lia|].
  apply Z.mul_le_mono_nonneg_r; lia.
Qed.

(** Under the same conditions the sweep prints one row per visited value,
    the values read back never decrease from one row to the next, and in
    every row the value read back lies between [expected_lo] and the
    software value, itself at most [expected_hi]. *)
Theorem adc_run_rows_sorted
  (expected_lo expected_hi calibrated_lo calibrated_hi raw : Z) (hw : interp_hw) :
  calibrated_lo < calibrated_hi ->
  calibrated_lo <= raw <= calibrated_hi ->
  calibrated_lo <= 1000 ->
  0 <= expected_lo < expected_hi ->
  fits_int expected_hi ->
  fits_int calibrated_lo ->
  fits_int (calibrated_hi + 100) ->
  fits_int (FRACTION_MAX * (calibrated_hi - calibrated_lo)) ->
  fits_int ((expected_hi - expected_lo) * (calibrated_hi - calibrated_lo)) ->
  fits_int (expected_hi + expected_hi / 256) ->
  exists one rows,
    value_of (adc_run expected_lo expected_hi calibrated_lo calibrated_hi raw hw)
    = Ok (one, rows)
    /\ length rows = trip_count 1000 calibrated_hi 100
    /\ (forall i j, (i <= j < length rows)%nat ->
        hw_raw (nth i rows one) <= hw_raw (nth j rows one))
    /\ (forall r, In r rows ->
        expected_lo <= hw_raw r /\ hw_raw r <= soft r /\ soft r <= expected_hi).
Proof.
  intros Hc Hraw Hlo He Hh Hcl Hinc Hspan Hprod Hcorr.
  set (f := reading_in_range expected_lo expected_hi calibrated_lo calibrated_hi).
  set (n := trip_count 1000 calibrated_hi 100).
  exists (f raw), (map f (zseq 1000 100 n)).
  split; [|split; [|split]].
  - rewrite adc_run_value.
    rewrite sample_value_in_range by assumption. cbn [CInt.bind].
    rewrite sweep_value_in_range; try assumption; [reflexivity|].
    intros v Hv. apply zseq_trip_in in Hv; lia.
  - now rewrite length_map, zseq_length.
  - rewrite length_map, zseq_length. intros i j Hij.
    rewrite (nth_indep _ (f raw) (f 0)) by (rewrite length_map, zseq_length; lia).
    rewrite (nth_indep _ (f raw) (f 0)) by (rewrite length_map, zseq_length; lia).
    rewrite !map_nth, !zseq_nth by lia.
    apply hw_raw_in_range_monotone; lia.
  - intros r Hr. apply in_map_iff in Hr. destruct Hr as (v & <- & Hv).
    apply zseq_trip_in in Hv; [|lia].
    destruct (reading_in_range_bounds expected_lo expected_hi calibrated_lo calibrated_hi
                Hc He v ltac:(lia)) as (B1 & B2 & B3 & _).
    auto.
Qed.

Lemma adc_run_rows_sorted_witness :
  exists one rows,
    value_of (adc_run 1000 3000 900 2800 1500 hw_reset) = Ok (one, rows)
    /\ length rows = trip_count 1000 2800 100
    /\ (forall i j, (i <= j < length rows)%nat ->
        hw_raw (nth i rows one) <= hw_raw (nth j rows one))
    /\ (forall r, In r rows ->
        1000 <= hw_raw r /\ hw_raw r <= soft r /\ soft r <= 3000).
Proof.
  apply (adc_run_rows_sorted 1000 3000 900 2800 1500 hw_reset);
    try int_range; vm_compute; split; discriminate.
Defined.
